(** * Face attendance backend: a shallow embedding of [backend_app.py]

    The development follows the layout of the Python module: string helpers
    used by the tag parser, the label registry ([labels_map], an
    insertion-ordered [dict]), the training pipeline ([train_model],
    [load_or_train_model]), the attendance ledger ([log_attendance]) and the
    recognition endpoint ([scan_image_endpoint]).

    OpenCV is an external collaborator.  Its operations are gathered in the
    record [cv2]: decoding, face detection, cropping and LBPH prediction are
    oracles of that record, and every definition of the pipeline takes the
    record as a parameter.  What the Python binding does with an oracle's
    answer (the Python value it hands back) is written out where the program
    depends on it. *)

From Stdlib Require Import ZArith QArith String Ascii List Lia DecimalString.
From stdpp Require Import gmap strings list.
Import ListNotations.

Local Open Scope Z_scope.

(** ** Python [str] operations

    A [str] is modelled by a [string] of bytes.  The case mappings are those
    of the ASCII letters, which is what Python does on ASCII text; on text
    with other characters Python uses the Unicode tables and the functions
    below do not follow it (a byte outside the ASCII range is left as it is
    and counts as uncased).  A statement that depends on the case of letters
    is therefore made for ASCII text, or holds whatever the tables are. *)
Module PyStr.

Definition is_lower (c : ascii) : bool :=
  ((97 <=? N_of_ascii c) && (N_of_ascii c <=? 122))%N.

Definition is_upper (c : ascii) : bool :=
  ((65 <=? N_of_ascii c) && (N_of_ascii c <=? 90))%N.

Definition is_digit (c : ascii) : bool :=
  ((48 <=? N_of_ascii c) && (N_of_ascii c <=? 57))%N.

Definition to_upper (c : ascii) : ascii :=
  if is_lower c then ascii_of_N (N_of_ascii c - 32) else c.

Definition to_lower (c : ascii) : ascii :=
  if is_upper c then ascii_of_N (N_of_ascii c + 32) else c.

(** [s.split(sep)] for a one-character separator: always at least one
    segment, an empty [s] gives [['']]. *)
Fixpoint split (sep : ascii) (s : string) : list string :=
  match s with
  | EmptyString => [EmptyString]
  | String c s' =>
      if Ascii.eqb c sep then EmptyString :: split sep s'
      else match split sep s' with
           | [] => [String c EmptyString]
           | seg :: segs => String c seg :: segs
           end
  end.

(** [s.replace(a, b)] for one-character [a] and [b]. *)
Fixpoint replace (a b : ascii) (s : string) : string :=
  match s with
  | EmptyString => EmptyString
  | String c s' => String (if Ascii.eqb c a then b else c) (replace a b s')
  end.

(** [s.title()]: a cased character is upper-cased when the character before
    it is not cased, lower-cased otherwise. *)
Fixpoint title_from (previous_is_cased : bool) (s : string) : string :=
  match s with
  | EmptyString => EmptyString
  | String c s' =>
      if is_lower c || is_upper c
      then String (if previous_is_cased then to_lower c else to_upper c)
                  (title_from true s')
      else String c (title_from false s')
  end.

Definition title (s : string) : string := title_from false s.

(** [s.lower()]. *)
Fixpoint lower (s : string) : string :=
  match s with
  | EmptyString => EmptyString
  | String c s' => String (to_lower c) (lower s')
  end.

(** [s.endswith(suffix)]. *)
Definition endswith (s suffix : string) : bool :=
  let n := String.length s in
  let k := String.length suffix in
  (k <=? n)%nat && String.eqb (String.substring (n - k) k s) suffix.

(** [s.endswith((t1, ..., tn))]. *)
Definition endswith_any (s : string) (suffixes : list string) : bool :=
  existsb (endswith s) suffixes.

(** [sep.join(parts)]. *)
Definition join (sep : string) (parts : list string) : string :=
  String.concat sep parts.

(** [str(n)] for an [int]. *)
Definition str_int (n : Z) : string := NilZero.string_of_int (Z.to_int n).

(** The [%02d]-style fields of [strftime]: decimal, padded with zeros on the
    left up to [width]. *)
Fixpoint zeros (k : nat) : string :=
  match k with
  | O => EmptyString
  | S k' => String "0" (zeros k')
  end.

Definition zero_pad (width : nat) (n : Z) : string :=
  let d := str_int n in
  (zeros (width - String.length d) ++ d)%string.

(** [c in s] for a character. *)
Fixpoint contains (c : ascii) (s : string) : bool :=
  match s with
  | EmptyString => false
  | String c' s' => Ascii.eqb c' c || contains c s'
  end.

End PyStr.

(** ** Python [dict] with integer keys

    [labels_map] is iterated with [.items()], so the insertion order of a
    Python [dict] is observable: the model is an association list with
    pairwise distinct keys, in insertion order. *)
Module PyDict.

Section Dict.
Context {V : Type}.

(** [k in d]. *)
Fixpoint mem (k : Z) (d : list (Z * V)) : bool :=
  match d with
  | [] => false
  | (k', _) :: d' => (k' =? k) || mem k d'
  end.

(** [d.get(k)]; [d[k]] when the key is present. *)
Fixpoint get (k : Z) (d : list (Z * V)) : option V :=
  match d with
  | [] => None
  | (k', v) :: d' => if k' =? k then Some v else get k d'
  end.

(** [d[k] = v]: an existing key keeps its place and takes the new value, a
    new key goes to the end. *)
Fixpoint set (k : Z) (v : V) (d : list (Z * V)) : list (Z * V) :=
  match d with
  | [] => [(k, v)]
  | (k', v') :: d' =>
      if k' =? k then (k, v) :: d' else (k', v') :: set k v d'
  end.

(** [d.keys()]. *)
Definition keys (d : list (Z * V)) : list Z := map fst d.

(** [max(d.keys())] of a non-empty dict, folded from its first key. *)
Definition max_key (d : list (Z * V)) : option Z :=
  match keys d with
  | [] => None
  | k :: ks => Some (fold_left Z.max ks k)
  end.

(** Truth value of a dict: [not d] holds for the empty one only. *)
Definition is_empty (d : list (Z * V)) : bool :=
  match d with [] => true | _ => false end.

End Dict.

End PyDict.

(** ** [datetime] values

    A naive [datetime] is its seven fields; subtraction goes through the
    proleptic Gregorian ordinal, as in the [datetime] module. *)
Module PyTime.

Record datetime := {
  year : Z; month : Z; day : Z;
  hour : Z; minute : Z; second : Z; microsecond : Z
}.

Definition is_leap (y : Z) : bool :=
  (y mod 4 =? 0) && (negb (y mod 100 =? 0) || (y mod 400 =? 0)).

Definition days_before_year (y : Z) : Z :=
  let y1 := y - 1 in y1 * 365 + y1 / 4 - y1 / 100 + y1 / 400.

Definition days_in_month (y m : Z) : Z :=
  if m =? 2 then (if is_leap y then 29 else 28)
  else if (m =? 4) || (m =? 6) || (m =? 9) || (m =? 11) then 30 else 31.

Definition days_before_month (y m : Z) : Z :=
  fold_left (fun acc k => acc + days_in_month y (Z.of_nat k))
            (seq 1 (Z.to_nat (m - 1))) 0.

Definition toordinal (t : datetime) : Z :=
  days_before_year (year t) + days_before_month (year t) (month t) + day t.

(** [(a - b)] as a whole number of microseconds (a [timedelta] is exactly
    that number, normalised). *)
Definition sub_microseconds (a b : datetime) : Z :=
  ((toordinal a - toordinal b) * 86400
   + ((second a + minute a * 60 + hour a * 3600)
      - (second b + minute b * 60 + hour b * 3600))) * 1000000
  + (microsecond a - microsecond b).

(** [(a - b).total_seconds()].  Python returns the double nearest to this
    quotient; rounding is monotone and fixes every integer of this size, so
    a comparison with an integer constant has the same answer on the exact
    value. *)
Definition total_seconds (a b : datetime) : Q :=
  Qmake (sub_microseconds a b) 1000000.

(** [t.strftime("%Y-%m-%d")].  The C library prints the year as it is,
    without padding: four digits from the year 1000 on. *)
Definition strftime_date (t : datetime) : string :=
  (PyStr.str_int (year t) ++ "-" ++ PyStr.zero_pad 2 (month t) ++ "-"
   ++ PyStr.zero_pad 2 (day t))%string.

(** [t.strftime("%H:%M:%S")]. *)
Definition strftime_time (t : datetime) : string :=
  (PyStr.zero_pad 2 (hour t) ++ ":" ++ PyStr.zero_pad 2 (minute t) ++ ":"
   ++ PyStr.zero_pad 2 (second t))%string.

End PyTime.

(** Comparison of a Python [float] (a finite double, hence a rational) with
    another one, and [int(x)], which truncates toward zero. *)
Definition Qltb (x y : Q) : bool :=
  Qnum x * Zpos (Qden y) <? Qnum y * Zpos (Qden x).

Definition int_of_float (x : Q) : Z := Z.quot (Qnum x) (Zpos (Qden x)).

(** ** OpenCV, as the program sees it *)

(** A bounding box [(x, y, w, h)]. *)
Record rect := { rx : Z; ry : Z; rw : Z; rh : Z }.

(** The Python value returned by [detectMultiScale].  The binding converts
    the detector's vector of rectangles with [pyopencv_from]. *)
Inductive detections :=
| EmptyTuple
| NdArray (rows : list rect).

(** OpenCV's vector converter: an empty vector becomes the empty tuple [()],
    any other one an [ndarray] with one row per rectangle. *)
Definition pyopencv_from (v : list rect) : detections :=
  match v with
  | [] => EmptyTuple
  | _ :: _ => NdArray v
  end.

(** [len(d)]. *)
Definition det_len (d : detections) : nat :=
  match d with
  | EmptyTuple => O
  | NdArray rows => length rows
  end.

(** The rows iterated by [for (x, y, w, h) in d]; also [d[0]] as the head. *)
Definition det_rows (d : detections) : list rect :=
  match d with
  | EmptyTuple => []
  | NdArray rows => rows
  end.

(** A raised exception: its class and [str(e)]. *)
Inductive py_exception := PyExn (cls : string) (msg : string).

Definition exn_str (e : py_exception) : string :=
  match e with PyExn _ msg => msg end.

Definition rect_nonzero (r : rect) : bool :=
  negb ((rx r =? 0) && (ry r =? 0) && (rw r =? 0) && (rh r =? 0)).

(** [d.any()]: a tuple has no such attribute; on an array it tells whether
    some entry is non-zero. *)
Definition det_any (d : detections) : py_exception + bool :=
  match d with
  | EmptyTuple =>
      inl (PyExn "AttributeError" "'tuple' object has no attribute 'any'")
  | NdArray rows => inr (existsb rect_nonzero rows)
  end.

(** The operations of [cv2] the backend calls.  [lbph_predict images labels
    roi] is [face_recognizer.predict(roi)] for a recognizer trained on
    [images] and [labels]; a confidence is a finite double.  [empty_buffer]
    tells the uploads of zero bytes, on which [cv2.imdecode] raises instead
    of returning [None]; no frame comes out of such a buffer. *)
Record cv2 := {
  blob : Type;
  frame : Type;
  image : Type;
  sample : Type;
  imread_grayscale : blob -> option image;
  imdecode_color : blob -> option frame;
  empty_buffer : blob -> bool;
  empty_buffer_no_frame :
    forall data, empty_buffer data = true -> imdecode_color data = None;
  imdecode_empty : py_exception;
  cvtColor_gray : frame -> image;
  detect_train : image -> detections;
  detect_scan : image -> detections;
  crop_resize : image -> rect -> sample;
  lbph_predict : list sample -> list Z -> sample -> Z * Q;
  detector_empty : bool
}.

(** [cv2.imdecode(np.frombuffer(data, np.uint8), cv2.IMREAD_COLOR)]: it raises
    on a buffer of zero bytes ([imdecode_empty], the [cv2.error] of the
    assertion on the buffer, whose text depends on the build of the library)
    and returns [None] for bytes that are no image. *)
Definition py_imdecode (cv : cv2) (data : blob cv)
  : py_exception + option (frame cv) :=
  if empty_buffer cv data then inl (imdecode_empty cv)
  else inr (imdecode_color cv data).

(** The labels reach the recognizer as a matrix of 32-bit integers: the
    binding casts the [int64] array [np.array(labels)] to [CV_32S], and the
    cast wraps.  (A label that does not fit in 64 bits makes the call raise
    instead, which is a [TrainRaises] fault of [train_model].) *)
Definition to_int32 (l : Z) : Z := (l + 2147483648) mod 4294967296 - 2147483648.

(** ** Data of the backend *)

(** A value of [labels_map]: [{'name': ..., 'roll_no': ...}]. *)
Record identity := { name : string; roll_no : string }.

Inductive log_msg :=
| MsgLoadedExisting (next : Z)
| MsgLoadModelError
| MsgLoadUnexpectedError
| MsgNoExistingModel
| MsgScanningDir
| MsgTrainingDirNotFound
| MsgDetectorNotLoaded
| MsgProcessing (nm rn : string) (label_id : Z)
| MsgSkipping (file_name : string) (found : nat)
| MsgCouldNotRead (file_name : string)
| MsgNoValidFaces
| MsgTraining (n_images n_persons : nat)
| MsgTrainingComplete
| MsgTrainingError (e : py_exception)
| MsgAttendanceMarked (nm rn time : string)
| MsgAttendanceWriteError (e : py_exception)
| MsgScanRequest
| MsgScanDecodeError
| MsgScanError (e : py_exception).

Inductive log_record :=
| LogInfo (m : log_msg)
| LogWarning (m : log_msg)
| LogError (m : log_msg).

(** What a persisted file holds when it is read back. *)
Inductive payload (A : Type) :=
| Corrupt
| Intact (a : A).
Arguments Corrupt {A}.
Arguments Intact {A} a.

Section Backend.
Context (cv : cv2).

(** An entry of the training directory: a file with its bytes, or a
    directory with its entries in [scandir] order. *)
#[warnings="-register-all"]
Inductive node :=
| File (data : blob cv)
| Dir (entries : list (string * node)).

(** The state of [face_recognizer] once trained or read: the images and
    labels it was computed from. *)
Record lbph := { trained_images : list (sample cv); trained_labels : list Z }.

(** Module globals and the three files the backend owns. *)
Record backend := {
  face_recognizer : option lbph;
  labels_map : list (Z * identity);
  next_label_id : Z;
  attendance_logged_today : gmap string PyTime.datetime;
  LBPH_MODEL_FILE : option (payload lbph);
  LABELS_MAP_FILE : option (payload (list (Z * identity)));
  ATTENDANCE_LOG_FILE : option (list string)
}.

(** *** Walking the training directory *)

(** [dirs.sort()] on names that are distinct within one directory: insertion
    by code point order, equal names keep their order. *)
Fixpoint insert_by_name {A : Type} (x : string * A) (l : list (string * A))
  : list (string * A) :=
  match l with
  | [] => [x]
  | y :: l' =>
      if String.leb (fst x) (fst y) then x :: y :: l'
      else y :: insert_by_name x l'
  end.

Definition sort_by_name {A : Type} (l : list (string * A)) : list (string * A) :=
  fold_right insert_by_name [] l.

(** The sub-directories of a directory, with their own entries. *)
Fixpoint subdirs (entries : list (string * node))
  : list (string * list (string * node)) :=
  match entries with
  | [] => []
  | (nm, File _) :: rest => subdirs rest
  | (nm, Dir es) :: rest => (nm, es) :: subdirs rest
  end.

(** [os.walk(top)], top-down, with the caller sorting [dirs] in place before
    the generator goes on: one item per visited directory, holding that
    directory's sub-directories in sorted order (each with its entries, which
    is what [os.listdir(os.path.join(root, dir_name))] lists).  The visit then
    goes down the sub-directories in that same order. *)
Fixpoint os_walk_node (n : node) : list (list (string * list (string * node))) :=
  match n with
  | File _ => []
  | Dir entries =>
      sort_by_name (subdirs entries)
      :: concat (map snd (sort_by_name
           ((fix below (l : list (string * node)) :=
               match l with
               | [] => []
               | (nm, child) :: rest =>
                   match child with
                   | File _ => below rest
                   | Dir _ => (nm, os_walk_node child) :: below rest
                   end
               end) entries)))
  end.

Definition os_walk (top : list (string * node)) :=
  os_walk_node (Dir top).

(** *** [train_model] *)

(** Lines 89-91: the group tag is the directory name. *)
Definition parse_dir_name (dir_name : string) : identity :=
  let parts := PyStr.split "_" dir_name in
  {| name := PyStr.title (PyStr.replace "-" " " (hd EmptyString parts));
     roll_no := match parts with
                | _ :: second :: _ => second
                | _ => EmptyString
                end |}.

(** Lines 93-97: the first item of [labels_map.items()] with this name and
    roll number. *)
Fixpoint find_label (items : list (Z * identity)) (nm rn : string) : option Z :=
  match items with
  | [] => None
  | (label_id, info) :: rest =>
      if String.eqb (name info) nm && String.eqb (roll_no info) rn
      then Some label_id
      else find_label rest nm rn
  end.

(** The locals of [train_model] while the directory is scanned; [labels_map]
    is the global, mutated in place. *)
Record scan_state := {
  sc_labels_map : list (Z * identity);
  sc_current_id : Z;
  sc_images : list (sample cv);
  sc_labels : list Z;
  sc_log : list log_record
}.

(** Lines 93-104: the label of a group, with the registry and the counter
    after it. *)
Definition resolve_label (lm : list (Z * identity)) (current_id : Z)
    (nm rn : string) : Z * list (Z * identity) * Z :=
  match find_label lm nm rn with
  | None =>
      (current_id, PyDict.set current_id {| name := nm; roll_no := rn |} lm,
       current_id + 1)
  | Some found_label => (found_label, lm, current_id)
  end.

Definition image_suffixes : list string :=
  [".png"; ".jpg"; ".jpeg"; ".gif"]%string.

(** [cv2.imread(image_path, cv2.IMREAD_GRAYSCALE)]: [None] for a path that is
    not a readable image, a directory included. *)
Definition imread (n : node) : option (image cv) :=
  match n with
  | File data => imread_grayscale cv data
  | Dir _ => None
  end.

Definition add_sample (st : scan_state) (roi : sample cv) (label_id : Z)
  : scan_state :=
  {| sc_labels_map := sc_labels_map st;
     sc_current_id := sc_current_id st;
     sc_images := sc_images st ++ [roi];
     sc_labels := sc_labels st ++ [label_id];
     sc_log := sc_log st |}.

Definition add_log (st : scan_state) (r : log_record) : scan_state :=
  {| sc_labels_map := sc_labels_map st;
     sc_current_id := sc_current_id st;
     sc_images := sc_images st;
     sc_labels := sc_labels st;
     sc_log := sc_log st ++ [r] |}.

(** Lines 110-124: one entry of the group's directory.  With
    [len(detected_faces) == 1] the index [0] exists. *)
Definition process_file (label_id : Z) (st : scan_state)
    (entry : string * node) : scan_state :=
  let (file_name, n) := entry in
  if PyStr.endswith_any (PyStr.lower file_name) image_suffixes then
    match imread n with
    | Some img =>
        let detected_faces := detect_train cv img in
        if (det_len detected_faces =? 1)%nat then
          match det_rows detected_faces with
          | face :: _ => add_sample st (crop_resize cv img face) label_id
          | [] => st
          end
        else
          add_log st (LogWarning (MsgSkipping file_name (det_len detected_faces)))
    | None => add_log st (LogWarning (MsgCouldNotRead file_name))
    end
  else st.

(** Lines 88-124: one sub-directory [dir_name] of the directory being
    visited. *)
Definition process_dir (st : scan_state)
    (d : string * list (string * node)) : scan_state :=
  let (dir_name, listing) := d in
  let who := parse_dir_name dir_name in
  let '(label_id, lm, current_id) :=
    resolve_label (sc_labels_map st) (sc_current_id st) (name who) (roll_no who) in
  fold_left (process_file label_id) listing
    {| sc_labels_map := lm;
       sc_current_id := current_id;
       sc_images := sc_images st;
       sc_labels := sc_labels st;
       sc_log := sc_log st ++
         [LogInfo (MsgProcessing (name who) (roll_no who) label_id)] |}.

(** Lines 86-124: the whole walk. *)
Definition scan_training_dir (top : list (string * node)) (st : scan_state)
  : scan_state :=
  fold_left (fun acc dirs => fold_left process_dir dirs acc) (os_walk top) st.

(** [len(set(labels))]. *)
Fixpoint distinct (l : list Z) : list Z :=
  match l with
  | [] => []
  | x :: l' => if existsb (Z.eqb x) l' then distinct l' else x :: distinct l'
  end.

(** Which call of the [try] block of lines 131-140 raises, if any.
    [WriteRaises] and [SaveRaises] are calls that raise before their file is
    opened, so that the file is as it was; [WriteRaisesPartial] and
    [SaveRaisesPartial] are calls that raise once the file has been opened
    for writing, which truncates it: what they leave is not readable. *)
Inductive train_fault :=
| TrainOk
| TrainRaises (e : py_exception)
| WriteRaises (e : py_exception)
| SaveRaises (e : py_exception)
| WriteRaisesPartial (e : py_exception)
| SaveRaisesPartial (e : py_exception).

Definition set_labels_map (b : backend) (lm : list (Z * identity)) : backend :=
  {| face_recognizer := face_recognizer b;
     labels_map := lm;
     next_label_id := next_label_id b;
     attendance_logged_today := attendance_logged_today b;
     LBPH_MODEL_FILE := LBPH_MODEL_FILE b;
     LABELS_MAP_FILE := LABELS_MAP_FILE b;
     ATTENDANCE_LOG_FILE := ATTENDANCE_LOG_FILE b |}.

(** [train_model()].  [training_dir] is [None] when
    [KNOWN_FACES_TRAINING_DIR] does not exist.  The result is the returned
    boolean, the backend afterwards and the log records emitted. *)
Definition train_model (training_dir : option (list (string * node)))
    (fault : train_fault) (b : backend) : bool * backend * list log_record :=
  let log0 := [LogInfo MsgScanningDir] in
  match training_dir with
  | None => (false, b, log0 ++ [LogError MsgTrainingDirNotFound])
  | Some top =>
      if detector_empty cv then
        (false, b, log0 ++ [LogError MsgDetectorNotLoaded])
      else
        let st := scan_training_dir top
                    {| sc_labels_map := labels_map b;
                       sc_current_id := next_label_id b;
                       sc_images := [];
                       sc_labels := [];
                       sc_log := log0 |} in
        let b1 := set_labels_map b (sc_labels_map st) in
        match sc_images st with
        | [] => (false, b1, sc_log st ++ [LogWarning MsgNoValidFaces])
        | _ :: _ =>
            let log1 := sc_log st ++
              [LogInfo (MsgTraining (length (sc_images st))
                                    (length (distinct (sc_labels st))))] in
            let model := {| trained_images := sc_images st;
                            trained_labels := map to_int32 (sc_labels st) |} in
            match fault with
            | TrainRaises e => (false, b1, log1 ++ [LogError (MsgTrainingError e)])
            | WriteRaises e =>
                (false,
                 {| face_recognizer := Some model;
                    labels_map := sc_labels_map st;
                    next_label_id := next_label_id b;
                    attendance_logged_today := attendance_logged_today b;
                    LBPH_MODEL_FILE := LBPH_MODEL_FILE b;
                    LABELS_MAP_FILE := LABELS_MAP_FILE b;
                    ATTENDANCE_LOG_FILE := ATTENDANCE_LOG_FILE b |},
                 log1 ++ [LogError (MsgTrainingError e)])
            | SaveRaises e =>
                (false,
                 {| face_recognizer := Some model;
                    labels_map := sc_labels_map st;
                    next_label_id := next_label_id b;
                    attendance_logged_today := attendance_logged_today b;
                    LBPH_MODEL_FILE := Some (Intact model);
                    LABELS_MAP_FILE := LABELS_MAP_FILE b;
                    ATTENDANCE_LOG_FILE := ATTENDANCE_LOG_FILE b |},
                 log1 ++ [LogError (MsgTrainingError e)])
            | WriteRaisesPartial e =>
                (false,
                 {| face_recognizer := Some model;
                    labels_map := sc_labels_map st;
                    next_label_id := next_label_id b;
                    attendance_logged_today := attendance_logged_today b;
                    LBPH_MODEL_FILE := Some Corrupt;
                    LABELS_MAP_FILE := LABELS_MAP_FILE b;
                    ATTENDANCE_LOG_FILE := ATTENDANCE_LOG_FILE b |},
                 log1 ++ [LogError (MsgTrainingError e)])
            | SaveRaisesPartial e =>
                (false,
                 {| face_recognizer := Some model;
                    labels_map := sc_labels_map st;
                    next_label_id := next_label_id b;
                    attendance_logged_today := attendance_logged_today b;
                    LBPH_MODEL_FILE := Some (Intact model);
                    LABELS_MAP_FILE := Some Corrupt;
                    ATTENDANCE_LOG_FILE := ATTENDANCE_LOG_FILE b |},
                 log1 ++ [LogError (MsgTrainingError e)])
            | TrainOk =>
                (true,
                 {| face_recognizer := Some model;
                    labels_map := sc_labels_map st;
                    next_label_id := sc_current_id st;
                    attendance_logged_today := attendance_logged_today b;
                    LBPH_MODEL_FILE := Some (Intact model);
                    LABELS_MAP_FILE := Some (Intact (sc_labels_map st));
                    ATTENDANCE_LOG_FILE := ATTENDANCE_LOG_FILE b |},
                 log1 ++ [LogInfo MsgTrainingComplete])
            end
        end
  end.

(** *** [load_or_train_model] *)

Definition set_face_recognizer (b : backend) (m : lbph) : backend :=
  {| face_recognizer := Some m;
     labels_map := labels_map b;
     next_label_id := next_label_id b;
     attendance_logged_today := attendance_logged_today b;
     LBPH_MODEL_FILE := LBPH_MODEL_FILE b;
     LABELS_MAP_FILE := LABELS_MAP_FILE b;
     ATTENDANCE_LOG_FILE := ATTENDANCE_LOG_FILE b |}.

(** Line 54: [max(labels_map.keys()) + 1 if labels_map else 0]. *)
Definition next_after (lm : list (Z * identity)) : Z :=
  match PyDict.max_key lm with
  | Some m => m + 1
  | None => 0
  end.

(** [load_or_train_model()].  Reading a corrupt model file raises
    [cv2.error], reading a corrupt labels file raises some other exception;
    both handlers retrain. *)
Definition load_or_train_model (training_dir : option (list (string * node)))
    (fault : train_fault) (b : backend) : bool * backend * list log_record :=
  match LBPH_MODEL_FILE b, LABELS_MAP_FILE b with
  | Some model_data, Some labels_data =>
      match model_data with
      | Corrupt =>
          let '(ok, b', lg) := train_model training_dir fault b in
          (ok, b', LogError MsgLoadModelError :: lg)
      | Intact m =>
          let b1 := set_face_recognizer b m in
          match labels_data with
          | Corrupt =>
              let '(ok, b', lg) := train_model training_dir fault b1 in
              (ok, b', LogError MsgLoadUnexpectedError :: lg)
          | Intact loaded_labels_data =>
              (true,
               {| face_recognizer := Some m;
                  labels_map := loaded_labels_data;
                  next_label_id := next_after loaded_labels_data;
                  attendance_logged_today := attendance_logged_today b;
                  LBPH_MODEL_FILE := LBPH_MODEL_FILE b;
                  LABELS_MAP_FILE := LABELS_MAP_FILE b;
                  ATTENDANCE_LOG_FILE := ATTENDANCE_LOG_FILE b |},
               [LogInfo (MsgLoadedExisting (next_after loaded_labels_data))])
          end
      end
  | _, _ =>
      let '(ok, b', lg) := train_model training_dir fault b in
      (ok, b', LogInfo MsgNoExistingModel :: lg)
  end.

(** *** [log_attendance] *)

Definition min_log_interval_seconds : Z := 10.

(** Line 148: [f"{name}_{roll_no}_{today_date}"]. *)
Definition log_key (nm rn today_date : string) : string :=
  (nm ++ "_" ++ rn ++ "_" ++ today_date)%string.

(** Line 154. *)
Definition log_entry (now : PyTime.datetime) (nm rn : string) : string :=
  (PyTime.strftime_date now ++ "," ++ PyTime.strftime_time now ++ ","
   ++ nm ++ "," ++ rn ++ String "010" EmptyString)%string.

Definition log_header : string :=
  ("Date,Time,Name,Roll_Number" ++ String "010" EmptyString)%string.

(** Lines 151-152: the guard of the logging branch. *)
Definition interval_elapsed (now : PyTime.datetime)
    (last_logged_dt : option PyTime.datetime) : bool :=
  match last_logged_dt with
  | None => true
  | Some last =>
      Qltb (inject_Z min_log_interval_seconds) (PyTime.total_seconds now last)
  end.

(** Which write of the [try] block of lines 155-167 raises, if any.
    [HeaderRaises] is [open(..., "w")] raising, so that the file is still
    absent, and [AppendRaises] an append that raises with nothing written.
    [HeaderWriteRaises] is the header write raising after [open(..., "w")]
    has created the file, and [AppendWriteRaises] an append that raises
    after part of the entry went out; [residue] is what the failed write
    left in the file (possibly nothing). *)
Inductive write_fault :=
| WriteOk
| HeaderRaises (e : py_exception)
| AppendRaises (e : py_exception)
| HeaderWriteRaises (e : py_exception) (residue : string)
| AppendWriteRaises (e : py_exception) (residue : string).

Definition set_ledger (b : backend) (seen : gmap string PyTime.datetime)
    (file : option (list string)) : backend :=
  {| face_recognizer := face_recognizer b;
     labels_map := labels_map b;
     next_label_id := next_label_id b;
     attendance_logged_today := seen;
     LBPH_MODEL_FILE := LBPH_MODEL_FILE b;
     LABELS_MAP_FILE := LABELS_MAP_FILE b;
     ATTENDANCE_LOG_FILE := file |}.

(** [log_attendance(name, roll_no)] with [datetime.now()] read as [now].  The
    attendance file is the list of the strings written to it.  The header
    step runs only when the file is absent, so a fault of that step has no
    effect on a file that exists. *)
Definition log_attendance (now : PyTime.datetime) (fault : write_fault)
    (nm rn : string) (b : backend) : bool * backend * list log_record :=
  let today_date := PyTime.strftime_date now in
  let key := log_key nm rn today_date in
  let seen := attendance_logged_today b in
  if interval_elapsed now (seen !! key) then
    match ATTENDANCE_LOG_FILE b, fault with
    | None, HeaderRaises e =>
        (false, b, [LogError (MsgAttendanceWriteError e)])
    | None, HeaderWriteRaises e residue =>
        (false, set_ledger b seen (Some [residue]),
         [LogError (MsgAttendanceWriteError e)])
    | None, AppendRaises e =>
        (false, set_ledger b seen (Some [log_header]),
         [LogError (MsgAttendanceWriteError e)])
    | None, AppendWriteRaises e residue =>
        (false, set_ledger b seen (Some ([log_header] ++ [residue])),
         [LogError (MsgAttendanceWriteError e)])
    | Some written, AppendRaises e =>
        (false, b, [LogError (MsgAttendanceWriteError e)])
    | Some written, AppendWriteRaises e residue =>
        (false, set_ledger b seen (Some (written ++ [residue])),
         [LogError (MsgAttendanceWriteError e)])
    | None, WriteOk =>
        (true,
         set_ledger b (<[key := now]> seen)
                    (Some ([log_header] ++ [log_entry now nm rn])),
         [LogInfo (MsgAttendanceMarked nm rn (PyTime.strftime_time now))])
    | Some written, _ =>
        (true,
         set_ledger b (<[key := now]> seen)
                    (Some (written ++ [log_entry now nm rn])),
         [LogInfo (MsgAttendanceMarked nm rn (PyTime.strftime_time now))])
    end
  else (false, b, []).

(** *** [scan_image_endpoint] *)

(** [jsonify({"message": ...})] or [jsonify({"error": ...})], with the HTTP
    status. *)
Inductive json :=
| JsonMessage (s : string)
| JsonError (s : string).

Definition recognition_threshold : Q := inject_Z 80.

Definition recognized_text (info : identity) : string :=
  ("Recognized: " ++ name info ++ " (Roll: " ++ roll_no info
   ++ "). Attendance Marked.")%string.

Definition unknown_text (confidence : Q) : string :=
  ("Detected an Unknown face (Confidence: "
   ++ PyStr.str_int (int_of_float confidence) ++ "). Access Denied.")%string.

(** What the surroundings supply to one request: the training directory and
    the fault of a retraining the request may start, and for the [i]-th
    detected face the clock reading and the fault of its [log_attendance]
    call. *)
Record ambient := {
  training_dir : option (list (string * node));
  retrain_fault : train_fault;
  clock : nat -> PyTime.datetime;
  attendance_fault : nat -> write_fault
}.

Definition lbph_not_computed : py_exception :=
  PyExn "cv2.error" "This LBPH model is not computed yet. Did you call the train method?".

(** Lines 252-269: the loop over the detected faces, from the [i]-th on.
    [predict] raises on a recognizer that was never trained or read; the
    exception leaves the loop with what earlier iterations already did. *)
Fixpoint recognize_faces (amb : ambient) (gray_frame : image cv)
    (faces : list rect) (i : nat) (b : backend) (results : list string)
    (lg : list log_record)
  : (py_exception + list string) * backend * list log_record :=
  match faces with
  | [] => (inr results, b, lg)
  | face :: rest =>
      let face_roi := crop_resize cv gray_frame face in
      match face_recognizer b with
      | None => (inl lbph_not_computed, b, lg)
      | Some m =>
          let (label, confidence) :=
            lbph_predict cv (trained_images m) (trained_labels m) face_roi in
          if Qltb confidence recognition_threshold
             && PyDict.mem label (labels_map b)
          then
            match PyDict.get label (labels_map b) with
            | Some person_info =>
                let '(_, b', lg') :=
                  log_attendance (clock amb i) (attendance_fault amb i)
                                 (name person_info) (roll_no person_info) b in
                recognize_faces amb gray_frame rest (S i) b'
                  (results ++ [recognized_text person_info]) (lg ++ lg')
            | None => (inl (PyExn "KeyError" (PyStr.str_int label)), b, lg)
            end
          else
            recognize_faces amb gray_frame rest (S i) b
              (results ++ [unknown_text confidence]) lg
      end
  end.

Definition scan_error_text (e : py_exception) : string :=
  ("An error occurred during scanning: " ++ exn_str e)%string.

(** Lines 234-236: with an empty [labels_map] the model is loaded or trained
    first; the boolean tells whether the request may go on. *)
Definition ensure_model (amb : ambient) (b : backend)
  : bool * backend * list log_record :=
  if PyDict.is_empty (labels_map b)
  then load_or_train_model (training_dir amb) (retrain_fault amb) b
  else (true, b, []).

(** [scan_image_endpoint()], [image_file] being [request.files.get('image')]. *)
Definition scan_image_endpoint (image_file : option (blob cv)) (amb : ambient)
    (b : backend) : (json * Z) * backend * list log_record :=
  let lg0 := [LogInfo MsgScanRequest] in
  match image_file with
  | None => ((JsonError "Image file is required for scanning.", 400), b, lg0)
  | Some data =>
      if detector_empty cv then
        ((JsonError "Face detection system not initialized on backend. Check server logs.",
          500), b, lg0)
      else
        let '(ready, b1, lg1) := ensure_model amb b in
        if negb ready then
          ((JsonError "Face recognition model not available or training failed.",
            500), b1, lg0 ++ lg1)
        else
          match py_imdecode cv data with
          | inl e =>
              ((JsonError (scan_error_text e), 500), b1,
               lg0 ++ lg1 ++ [LogError (MsgScanError e)])
          | inr None =>
              ((JsonError "Invalid image file provided.", 400), b1,
               lg0 ++ lg1 ++ [LogError MsgScanDecodeError])
          | inr (Some frame) =>
              let gray_frame := cvtColor_gray cv frame in
              let faces := detect_scan cv gray_frame in
              match det_any faces with
              | inl e =>
                  ((JsonError (scan_error_text e), 500), b1,
                   lg0 ++ lg1 ++ [LogError (MsgScanError e)])
              | inr false =>
                  ((JsonMessage "No face detected in the uploaded image.", 200),
                   b1, lg0 ++ lg1)
              | inr true =>
                  match recognize_faces amb gray_frame (det_rows faces) O b1 []
                                        (lg0 ++ lg1) with
                  | (inl e, b2, lg2) =>
                      ((JsonError (scan_error_text e), 500), b2,
                       lg2 ++ [LogError (MsgScanError e)])
                  | (inr results, b2, lg2) =>
                      ((JsonMessage (PyStr.join " " results), 200), b2, lg2)
                  end
              end
          end
  end.

(** [train_model_endpoint()]: the [/train] route. *)
Definition train_model_endpoint (dir : option (list (string * node)))
    (fault : train_fault) (b : backend) : (json * Z) * backend :=
  let '(ok, b', _) := train_model dir fault b in
  if ok then ((JsonMessage "Model training complete!", 200), b')
  else ((JsonError "Model training failed. Check backend logs for details.", 500), b').

End Backend.

Arguments File {cv} data.
Arguments Dir {cv} entries.
Arguments Build_lbph {cv} _ _.
Arguments trained_images {cv} _.
Arguments trained_labels {cv} _.
Arguments Build_backend {cv} _ _ _ _ _ _ _.
Arguments face_recognizer {cv} _.
Arguments labels_map {cv} _.
Arguments next_label_id {cv} _.
Arguments attendance_logged_today {cv} _.
Arguments LBPH_MODEL_FILE {cv} _.
Arguments LABELS_MAP_FILE {cv} _.
Arguments ATTENDANCE_LOG_FILE {cv} _.
Arguments Build_scan_state {cv} _ _ _ _ _.
Arguments sc_labels_map {cv} _.
Arguments sc_current_id {cv} _.
Arguments sc_images {cv} _.
Arguments sc_labels {cv} _.
Arguments sc_log {cv} _.
Arguments Build_ambient {cv} _ _ _ _.
Arguments training_dir {cv} _.
Arguments retrain_fault {cv} _.
Arguments clock {cv} _ _.
Arguments attendance_fault {cv} _ _.

(** ** The specification's vocabulary

    The definitions of this part follow the words of the specification, to be
    compared with the program's. *)

(** "external id is everything after the first separator; absent external id
    defaults to empty string". *)
Fixpoint spec_external_id (tag : string) : string :=
  match tag with
  | EmptyString => EmptyString
  | String c rest => if Ascii.eqb c "_" then rest else spec_external_id rest
  end.

(** The name the parser gives: the text before the first [_], hyphens turned
    into spaces, title-cased. *)
Definition display_name (first_segment : string) : string :=
  PyStr.title (PyStr.replace "-" " " first_segment).

(** "classify as Recognized(Identity, score); otherwise classify as
    Unknown(score)". *)
Inductive outcome :=
| Recognized (who : identity) (score : Q)
| Unknown (score : Q).

(** "if score < recognition_threshold AND the label resolves to a known
    Identity in the Registry". *)
Definition spec_classify (registry : list (Z * identity)) (prediction : Z * Q)
  : outcome :=
  let (label, score) := prediction in
  match PyDict.get label registry with
  | Some who => if Qltb score (inject_Z 80) then Recognized who score
                else Unknown score
  | None => Unknown score
  end.

(** The outcome for one detected face: the prediction of the recognizer on
    the face's crop, classified against the registry. *)
Definition face_outcome {cv} (m : lbph cv) (registry : list (Z * identity))
    (gray_frame : image cv) (face : rect) : outcome :=
  spec_classify registry
    (lbph_predict cv (trained_images m) (trained_labels m)
                  (crop_resize cv gray_frame face)).

(** The text the endpoint reports for an outcome. *)
Definition outcome_text (o : outcome) : string :=
  match o with
  | Recognized who _ => recognized_text who
  | Unknown score => unknown_text score
  end.

(** What the attendance file holds before the entry of a call is appended:
    its content, or the header the call writes first. *)
Definition with_header (file : option (list string)) : list string :=
  match file with
  | None => [log_header]
  | Some written => written
  end.

(** "every label present in the classifier's trained set has a corresponding
    entry in the Registry". *)
Definition trained_labels_registered {cv} (b : backend cv) : Prop :=
  match face_recognizer b with
  | None => True
  | Some m => Forall (fun l => PyDict.mem l (labels_map b) = true) (trained_labels m)
  end.

(** "and vice versa": every label of the registry is in the trained set. *)
Definition registry_labels_trained {cv} (b : backend cv) : Prop :=
  match face_recognizer b with
  | None => labels_map b = []
  | Some m => Forall (fun l => In l (trained_labels m)) (PyDict.keys (labels_map b))
  end.

(** "require exactly one detected face": what one entry of a group's
    directory contributes to the trained set, a pair of its crop and the
    group's label when it is an image with a single detected face, nothing
    otherwise. *)
Definition file_crops {cv} (label : Z) (entry : string * node cv)
  : list (sample cv * Z) :=
  let (file_name, n) := entry in
  if PyStr.endswith_any (PyStr.lower file_name) image_suffixes then
    match imread cv n with
    | Some img =>
        match det_rows (detect_train cv img) with
        | [face] => [(crop_resize cv img face, label)]
        | _ => []
        end
    | None => []
    end
  else [].

(** The groups of a walk with the label each one is given, the registry and
    the counter being threaded through as lines 93-104 do. *)
Fixpoint resolve_groups {cv} (lm : list (Z * identity)) (current_id : Z)
    (dirs : list (string * list (string * node cv)))
  : list ((string * list (string * node cv)) * Z) :=
  match dirs with
  | [] => []
  | d :: rest =>
      let '(label_id, lm', current_id') :=
        resolve_label lm current_id (name (parse_dir_name (fst d)))
                      (roll_no (parse_dir_name (fst d))) in
      (d, label_id) :: resolve_groups lm' current_id' rest
  end.

(** "a (Sample, Label) pair": the pairs a labelled group contributes. *)
Definition group_pairs {cv} (g : (string * list (string * node cv)) * Z)
  : list (sample cv * Z) :=
  flat_map (file_crops (snd g)) (snd (fst g)).

(** A label that fits in a signed 32-bit integer, and a registry of such
    labels. *)
Definition fits_int32 (l : Z) : Prop := -2147483648 <= l < 2147483648.

Definition int32_registry (lm : list (Z * identity)) : Prop :=
  Forall fits_int32 (PyDict.keys lm).

(** The crops a group's directory contributes, whatever its label. *)
Definition dir_crops {cv} (listing : list (string * node cv)) : list (sample cv) :=
  map fst (flat_map (file_crops 0) listing).

(** Every label known to [lm] is known to [lm']. *)
Definition extends (lm lm' : list (Z * identity)) : Prop :=
  forall l, PyDict.mem l lm = true -> PyDict.mem l lm' = true.

(** The entries of [lm] are entries of [lm'], under the same labels. *)
Definition keeps (lm lm' : list (Z * identity)) : Prop :=
  forall l who, PyDict.get l lm = Some who -> PyDict.get l lm' = Some who.

(** The labels collected so far all have an entry in the registry. *)
Definition labels_registered {cv} (st : scan_state cv) : Prop :=
  Forall (fun l => PyDict.mem l (sc_labels_map st) = true) (sc_labels st).

(** The label counter is beyond every label of the registry. *)
Definition counter_above (lm : list (Z * identity)) (current_id : Z) : Prop :=
  Forall (fun l => l < current_id) (PyDict.keys lm).

(** ** A small concrete OpenCV

    Pictures are given by the faces in them: a file or upload is either
    undecodable or the list of its faces (none has zero bytes), the detector reports exactly those
    faces, a crop is the box itself, and prediction answers the label of the
    first training sample equal to the probe with distance 0, or label [-1]
    with a large distance when there is none. *)
Module Toy.

Fixpoint nearest (images : list rect) (labels : list Z) (roi : rect) : Z * Q :=
  match images, labels with
  | img :: images', l :: labels' =>
      if (rx img =? rx roi) && (ry img =? ry roi)
         && (rw img =? rw roi) && (rh img =? rh roi)
      then (l, inject_Z 0)
      else nearest images' labels' roi
  | _, _ => (-1, Qmake 12345 10)
  end.

Definition cv : cv2 := {|
  blob := option (list rect);
  frame := list rect;
  image := list rect;
  sample := rect;
  imread_grayscale := fun data => data;
  imdecode_color := fun data => data;
  empty_buffer := fun _ => false;
  empty_buffer_no_frame := fun data (H : false = true) =>
    match H in (_ = t) return (if t then data = None else True) with
    | eq_refl => I
    end;
  imdecode_empty :=
    PyExn "cv2.error" "(-215:Assertion failed) !buf.empty() in function 'imdecode_'";
  cvtColor_gray := fun fr => fr;
  detect_train := pyopencv_from;
  detect_scan := pyopencv_from;
  crop_resize := fun _ face => face;
  lbph_predict := nearest;
  detector_empty := false
|}.

Definition face_a : rect := {| rx := 10; ry := 10; rw := 40; rh := 40 |}.
Definition face_b : rect := {| rx := 90; ry := 20; rw := 50; rh := 50 |}.
Definition face_c : rect := {| rx := 5; ry := 70; rw := 35; rh := 35 |}.

(** The backend right after the module is imported, before the first
    [load_or_train_model()], with no file on disk. *)
Definition fresh : backend cv := {|
  face_recognizer := None;
  labels_map := [];
  next_label_id := 0;
  attendance_logged_today := ∅;
  LBPH_MODEL_FILE := None;
  LABELS_MAP_FILE := None;
  ATTENDANCE_LOG_FILE := None
|}.

(** A picture file showing the given faces. *)
Definition pic (faces : list rect) : node cv := @File cv (Some faces).

Definition alice : identity := {| name := "Alice"; roll_no := "1" |}.
Definition bob : identity := {| name := "Bob"; roll_no := "2" |}.

(** A training directory whose only group, [bob_2], holds one picture in
    which no face is detected. *)
Definition bob_faceless : list (string * node cv) :=
  [("bob_2"%string, Dir [("b1.jpg"%string, pic [])])].

(** The same directory after a group [alice_1] with one single-face picture
    has been added. *)
Definition alice_and_bob : list (string * node cv) :=
  [("bob_2"%string, Dir [("b1.jpg"%string, pic [])]);
   ("alice_1"%string, Dir [("a1.jpg"%string, pic [face_a])])].

(** The backend after [train_model()] ran on [bob_faceless] from [fresh]. *)
Definition after_failed_training : backend cv :=
  snd (fst (train_model cv (Some bob_faceless) TrainOk fresh)).

(** The backend after a following [train_model()] on [alice_and_bob]. *)
Definition after_second_training : backend cv :=
  snd (fst (train_model cv (Some alice_and_bob) TrainOk after_failed_training)).

(** The backend after [train_model()] ran on [alice_and_bob] from [fresh]. *)
Definition after_first_training : backend cv :=
  snd (fst (train_model cv (Some alice_and_bob) TrainOk fresh)).

(** A backend whose registry, as loaded from a labels file, holds Bob under
    the largest label a signed 32-bit integer can hold. *)
Definition at_int32_limit : backend cv := {|
  face_recognizer := None;
  labels_map := [(2147483647, bob)];
  next_label_id := 2147483648;
  attendance_logged_today := ∅;
  LBPH_MODEL_FILE := None;
  LABELS_MAP_FILE := None;
  ATTENDANCE_LOG_FILE := None
|}.

(** A request environment in which nothing fails and the clock reads
    09:00:00 plus one second per detected face. *)
Definition calm : ambient cv := {|
  training_dir := Some alice_and_bob;
  retrain_fault := TrainOk;
  clock := fun i =>
    {| PyTime.year := 2024; PyTime.month := 3; PyTime.day := 1;
       PyTime.hour := 9; PyTime.minute := 0; PyTime.second := Z.of_nat i;
       PyTime.microsecond := 0 |};
  attendance_fault := fun _ => WriteOk
|}.

(** An uploaded picture showing the given faces. *)
Definition upload (faces : list rect) : option (blob cv) := Some (Some faces).

Definition at_time (d h m s : Z) : PyTime.datetime :=
  {| PyTime.year := 2024; PyTime.month := 3; PyTime.day := d;
     PyTime.hour := h; PyTime.minute := m; PyTime.second := s;
     PyTime.microsecond := 0 |}.

End Toy.

(** ** Registration, log download and restart

    The remaining routes of the module and its start-up, on the same backend
    record.  [register_face] writes into the training directory, so it takes
    the directory and gives back the one it leaves. *)

(** [c.isalnum()], [c.isspace()] for ASCII characters; Python also counts
    letters and digits outside ASCII, so the statements that use these tables
    are made for ASCII text ([is_word], [is_ascii]). *)
Definition is_alnum (c : ascii) : bool :=
  PyStr.is_lower c || PyStr.is_upper c || PyStr.is_digit c.

Definition is_space (c : ascii) : bool :=
  (((9 <=? N_of_ascii c) && (N_of_ascii c <=? 13))
   || ((28 <=? N_of_ascii c) && (N_of_ascii c <=? 32)))%N.

(** Every character of the text is ASCII: the domain on which the case,
    [isalnum] and [isspace] tables above are Python's. *)
Fixpoint is_ascii (s : string) : bool :=
  match s with
  | EmptyString => true
  | String c s' => (N_of_ascii c <? 128)%N && is_ascii s'
  end.

(** ["".join(c for c in s if p(c))]. *)
Fixpoint keep (p : ascii -> bool) (s : string) : string :=
  match s with
  | EmptyString => EmptyString
  | String c s' => if p c then String c (keep p s') else keep p s'
  end.

(** Every character of the text satisfies [p]. *)
Fixpoint all_chars (p : ascii -> bool) (s : string) : bool :=
  match s with
  | EmptyString => true
  | String c s' => p c && all_chars p s'
  end.

(** A non-empty text of ASCII letters and digits: one word. *)
Definition is_word (s : string) : bool :=
  all_chars is_alnum s && negb (String.eqb s EmptyString).

(** [s.lstrip()], [s.rstrip()], [s.strip()]. *)
Fixpoint lstrip (s : string) : string :=
  match s with
  | EmptyString => EmptyString
  | String c s' => if is_space c then lstrip s' else s
  end.

Fixpoint rstrip (s : string) : string :=
  match s with
  | EmptyString => EmptyString
  | String c s' =>
      match rstrip s' with
      | EmptyString => if is_space c then EmptyString else String c EmptyString
      | rest => String c rest
      end
  end.

Definition strip (s : string) : string := rstrip (lstrip s).

(** Line 195. *)
Definition clean_name (nm : string) : string :=
  PyStr.replace " " "_" (strip (keep (fun c => is_alnum c || Ascii.eqb c " ") nm)).

(** Line 196. *)
Definition clean_roll_no (rn : string) : string :=
  strip (keep (fun c => is_alnum c || Ascii.eqb c "_") rn).

(** Line 198: the last component of [person_dir]. *)
Definition person_dir_name (nm rn : string) : string :=
  (clean_name nm ++ "_" ++ clean_roll_no rn)%string.

(** [t.strftime('%Y%m%d%H%M%S')]. *)
Definition strftime_compact (t : PyTime.datetime) : string :=
  (PyStr.str_int (PyTime.year t) ++ PyStr.zero_pad 2 (PyTime.month t)
   ++ PyStr.zero_pad 2 (PyTime.day t) ++ PyStr.zero_pad 2 (PyTime.hour t)
   ++ PyStr.zero_pad 2 (PyTime.minute t) ++ PyStr.zero_pad 2 (PyTime.second t))%string.

(** Line 201: the last component of [img_path]. *)
Definition image_file_name (nm rn : string) (now : PyTime.datetime) : string :=
  (person_dir_name nm rn ++ "_" ++ strftime_compact now ++ ".jpg")%string.

(** What [cv2.imwrite] does with the file: it writes it, it returns [False]
    without writing, or it raises. *)
Inductive imwrite_result :=
| Written
| NotWritten
| ImwriteRaises (e : py_exception).

(** The log records of [register_face]; those of the training it starts are
    carried as they are. *)
Inductive register_log :=
| RegRequest
| RegDecodeError
| RegSaved (nm img_path : string)
| RegTraining (r : log_record)
| RegError (e : py_exception).

Section Routes.
Context (cv : cv2).

(** The entry of a directory with the given name. *)
Fixpoint dir_lookup (nm : string) (entries : list (string * node cv))
  : option (node cv) :=
  match entries with
  | [] => None
  | (nm', n) :: rest => if String.eqb nm' nm then Some n else dir_lookup nm rest
  end.

(** [os.makedirs(person_dir, exist_ok=True)] in the training directory, which
    is created too when it is missing: nothing happens when the directory is
    there, and a file of that name makes the call raise. *)
Definition makedirs (dir_name : string)
    (training : option (list (string * node cv)))
  : py_exception + list (string * node cv) :=
  match training with
  | None => inr [(dir_name, Dir [])]
  | Some top =>
      match dir_lookup dir_name top with
      | None => inr (top ++ [(dir_name, Dir [])])
      | Some (Dir _) => inr top
      | Some (File _) => inl (PyExn "FileExistsError" dir_name)
      end
  end.

(** A file created or overwritten in a listing; a directory of that name is
    left alone. *)
Fixpoint put_file (file_name : string) (data : blob cv)
    (entries : list (string * node cv)) : list (string * node cv) :=
  match entries with
  | [] => [(file_name, File data)]
  | (nm, n) :: rest =>
      if String.eqb nm file_name
      then match n with
           | File _ => (nm, File data) :: rest
           | Dir _ => (nm, n) :: rest
           end
      else (nm, n) :: put_file file_name data rest
  end.

(** The same, inside the sub-directory [dir_name]. *)
Fixpoint put_file_in (dir_name file_name : string) (data : blob cv)
    (top : list (string * node cv)) : list (string * node cv) :=
  match top with
  | [] => []
  | (nm, n) :: rest =>
      if String.eqb nm dir_name
      then match n with
           | Dir entries => (nm, Dir (put_file file_name data entries)) :: rest
           | File _ => (nm, n) :: rest
           end
      else (nm, n) :: put_file_in dir_name file_name data rest
  end.

(** Truth value of a form field: [None] and the empty text are false. *)
Definition field_given (v : option string) : option string :=
  match v with
  | Some EmptyString => None
  | other => other
  end.

Definition registered_text (nm rn : string) : string :=
  ("Successfully registered " ++ nm ++ " (" ++ rn ++ ") and retrained model.")%string.

Definition retrain_failed_text (nm : string) : string :=
  ("Registered image for " ++ nm
   ++ ", but failed to retrain model. Check backend logs.")%string.

Definition registration_error_text (e : py_exception) : string :=
  ("An error occurred during registration: " ++ exn_str e)%string.

(** [register_face()].  [encode] gives the bytes [cv2.imwrite] stores for a
    decoded upload; [now] is the clock reading of line 201.  The result is the
    response (or the exception [os.makedirs] lets escape), the backend, the
    training directory afterwards and the log. *)
Definition register_face (encode : frame cv -> blob cv)
    (form_name form_roll_no : option string) (image_file : option (blob cv))
    (now : PyTime.datetime) (imwrite : imwrite_result) (fault : train_fault)
    (training : option (list (string * node cv))) (b : backend cv)
  : (py_exception + json * Z) * backend cv
    * option (list (string * node cv)) * list register_log :=
  match field_given form_name, field_given form_roll_no, image_file with
  | Some nm, Some rn, Some data =>
      match makedirs (person_dir_name nm rn) training with
      | inl e => (inl e, b, training, [RegRequest])
      | inr top =>
          match py_imdecode cv data with
          | inl e =>
              (inr (JsonError (registration_error_text e), 500), b, Some top,
               [RegRequest; RegError e])
          | inr None =>
              (inr (JsonError "Invalid image file provided.", 400), b, Some top,
               [RegRequest; RegDecodeError])
          | inr (Some img) =>
              match imwrite with
              | ImwriteRaises e =>
                  (inr (JsonError (registration_error_text e), 500), b, Some top,
                   [RegRequest; RegError e])
              | _ =>
                  let top' :=
                    match imwrite with
                    | Written =>
                        put_file_in (person_dir_name nm rn)
                                    (image_file_name nm rn now) (encode img) top
                    | _ => top
                    end in
                  let '(ok, b', lg) := train_model cv (Some top') fault b in
                  let lg' :=
                    [RegRequest;
                     RegSaved nm ("known_faces_images/" ++ person_dir_name nm rn
                                  ++ "/" ++ image_file_name nm rn now)]
                    ++ map RegTraining lg in
                  if ok
                  then (inr (JsonMessage (registered_text nm rn), 200), b',
                        Some top', lg')
                  else (inr (JsonError (retrain_failed_text nm), 500), b',
                        Some top', lg')
              end
          end
      end
  | _, _, _ =>
      (inr (JsonError "Name, Roll Number, and Image are required.", 400), b,
       training, [RegRequest])
  end.


(** Lines 25-28: the globals of a process that has just imported the module,
    beside the files an earlier process left. *)
Definition imported (b : backend cv) : backend cv :=
  {| face_recognizer := None;
     labels_map := [];
     next_label_id := 0;
     attendance_logged_today := ∅;
     LBPH_MODEL_FILE := LBPH_MODEL_FILE b;
     LABELS_MAP_FILE := LABELS_MAP_FILE b;
     ATTENDANCE_LOG_FILE := ATTENDANCE_LOG_FILE b |}.

(** The walks of the sub-directories of a directory, by name: what
    [os.walk] goes through after the directory itself. *)
Fixpoint sub_walks (entries : list (string * node cv))
  : list (string * list (list (string * list (string * node cv)))) :=
  match entries with
  | [] => []
  | (nm, child) :: rest =>
      match child with
      | File _ => sub_walks rest
      | Dir _ => (nm, os_walk_node cv child) :: sub_walks rest
      end
  end.

(** Lines 295-296: start-up. *)
Definition startup (training : option (list (string * node cv)))
    (fault : train_fault) (b : backend cv) : bool * backend cv * list log_record :=
  load_or_train_model cv training fault (imported b).

End Routes.

Arguments dir_lookup {cv} nm entries.
Arguments makedirs {cv} dir_name training.
Arguments put_file {cv} file_name data entries.
Arguments put_file_in {cv} dir_name file_name data top.

(** ** Relations between states used in the statements *)

(** The attendance file only grew: what was written is still there, in front
    (a file that did not exist counts as empty). *)
Definition log_extended (before after : option (list string)) : Prop :=
  match before, after with
  | None, None => True
  | None, Some w' => True
  | Some w, Some w' => exists added, w' = w ++ added
  | Some _, None => False
  end.

(** The attendance file is absent or starts with the header line. *)
Definition headed (file : option (list string)) : Prop :=
  match file with
  | None => True
  | Some w => exists rest, w = log_header :: rest
  end.

(** The counter is exactly one more than the highest label (0 on an empty
    registry) and the labels are pairwise distinct: the state of a backend
    that was loaded, or trained without a failure in between. *)
Definition counter_exact {cv} (b : backend cv) : Prop :=
  next_label_id b = next_after (labels_map b)
  /\ counter_above (labels_map b) (next_label_id b).

(** Two backends with the same recognizer and registry. *)
Definition same_model {cv} (b1 b2 : backend cv) : Prop :=
  face_recognizer b1 = face_recognizer b2 /\ labels_map b1 = labels_map b2.

(** The label the registry gives to the identity of a group tag. *)
Definition group_label (lm : list (Z * identity)) (dir_name : string) : option Z :=
  find_label lm (name (parse_dir_name dir_name)) (roll_no (parse_dir_name dir_name)).

(** The labels a group's directory contributes: its label, once per crop. *)
Definition dir_labels {cv} (lm : list (Z * identity))
    (d : string * list (string * node cv)) : list (option Z) :=
  map (fun _ => group_label lm (fst d)) (dir_crops (snd d)).

(** The toy OpenCV stores a decoded upload as it is. *)
Module ToyIO.

Definition encode : frame Toy.cv -> blob Toy.cv := fun fr => Some fr.

Definition noon : PyTime.datetime := Toy.at_time 1 12 0 0.

End ToyIO.

(** * Properties *)

(** ** Strings and the tag parser *)

Lemma split_not_nil (sep : ascii) (s : string) : PyStr.split sep s <> [].
Proof.
  induction s as [|c s IH]; simpl; [discriminate|].
  destruct (Ascii.eqb c sep); [discriminate|].
  destruct (PyStr.split sep s); discriminate.
Qed.

Lemma split_without_separator (sep : ascii) (s : string) :
  PyStr.contains sep s = false -> PyStr.split sep s = [s].
Proof.
  induction s as [|c s IH]; simpl; intros H; [reflexivity|].
  apply orb_false_iff in H as [Hc Hs].
  rewrite Hc, (IH Hs). reflexivity.
Qed.

Lemma split_at_first_separator (sep : ascii) (n rest : string) :
  PyStr.contains sep n = false ->
  PyStr.split sep (n ++ String sep rest)%string = n :: PyStr.split sep rest.
Proof.
  induction n as [|c n IH]; simpl; intros H.
  - rewrite Ascii.eqb_refl. reflexivity.
  - apply orb_false_iff in H as [Hc Hn].
    rewrite Hc, (IH Hn). reflexivity.
Qed.

Lemma spec_external_id_at_first_separator (n rest : string) :
  PyStr.contains "_" n = false ->
  spec_external_id (n ++ String "_" rest)%string = rest.
Proof.
  induction n as [|c n IH]; simpl; intros H; [reflexivity|].
  apply orb_false_iff in H as [Hc Hn]. rewrite Hc. auto.
Qed.

Lemma spec_external_id_without_separator (s : string) :
  PyStr.contains "_" s = false -> spec_external_id s = EmptyString.
Proof.
  induction s as [|c s IH]; simpl; intros H; [reflexivity|].
  apply orb_false_iff in H as [Hc Hs]. rewrite Hc. auto.
Qed.

(** C9 at its failing input: the directory [register_face] makes for the name
    Ann and the roll number A_12 (line 196 keeps underscores in a roll
    number).  Everything after the first separator of the tag is A_12; the
    parser takes the second segment only and gives A. *)
Theorem registered_roll_no_is_cut_at_underscore :
  person_dir_name "Ann" "A_12" = "Ann_A_12"%string
  /\ spec_external_id "Ann_A_12" = "A_12"%string
  /\ parse_dir_name "Ann_A_12" = {| name := "Ann"; roll_no := "A" |}
  /\ roll_no (parse_dir_name (person_dir_name "Ann" "A_12"))
     <> spec_external_id (person_dir_name "Ann" "A_12").
Proof.
  repeat split. vm_compute. discriminate.
Qed.

(** ** The registry as a dictionary *)

Section DictFacts.
Context {V : Type}.
Implicit Types (d : list (Z * V)) (k : Z) (v : V).

Lemma mem_get d k : PyDict.mem k d = true <-> exists v, PyDict.get k d = Some v.
Proof.
  induction d as [|[k' v'] d IH]; simpl.
  - split; [discriminate | intros [v H]; discriminate].
  - destruct (k' =? k); simpl; [split; eauto | exact IH].
Qed.

Lemma mem_keys d k : PyDict.mem k d = true <-> In k (PyDict.keys d).
Proof.
  unfold PyDict.keys. induction d as [|[k' v'] d IH]; simpl.
  - split; [discriminate | tauto].
  - rewrite orb_true_iff, Z.eqb_eq, IH. reflexivity.
Qed.

Lemma get_set_same d k v : PyDict.get k (PyDict.set k v d) = Some v.
Proof.
  induction d as [|[k' v'] d IH]; simpl.
  - rewrite Z.eqb_refl. reflexivity.
  - destruct (k' =? k) eqn:E; simpl; [rewrite Z.eqb_refl | rewrite E]; auto.
Qed.

Lemma get_set_other d k k' v :
  k' <> k -> PyDict.get k' (PyDict.set k v d) = PyDict.get k' d.
Proof.
  intros Hne. induction d as [|[k0 v0] d IH]; simpl.
  - apply Z.eqb_neq in Hne. rewrite Z.eqb_sym, Hne. reflexivity.
  - destruct (k0 =? k) eqn:E; simpl.
    + apply Z.eqb_eq in E. subst k0.
      assert ((k =? k') = false) as -> by (apply Z.eqb_neq; congruence).
      reflexivity.
    + destruct (k0 =? k'); auto.
Qed.

Lemma mem_set d k k' v :
  PyDict.mem k' (PyDict.set k v d) = (k =? k') || PyDict.mem k' d.
Proof.
  induction d as [|[k0 v0] d IH]; simpl.
  - reflexivity.
  - destruct (k0 =? k) eqn:E; simpl.
    + apply Z.eqb_eq in E. subst k0. destruct (k =? k'); reflexivity.
    + rewrite IH. destruct (k0 =? k'), (k =? k'); reflexivity.
Qed.

(** Assigning to a key that is absent appends the item. *)
Lemma set_absent d k v :
  PyDict.mem k d = false -> PyDict.set k v d = d ++ [(k, v)].
Proof.
  induction d as [|[k0 v0] d IH]; simpl; intros H; [reflexivity|].
  apply orb_false_iff in H as [E Hd]. rewrite E, (IH Hd). reflexivity.
Qed.

(** Assigning to a key that is present keeps the number of items. *)
Lemma set_present_length d k v :
  PyDict.mem k d = true -> length (PyDict.set k v d) = length d.
Proof.
  induction d as [|[k0 v0] d IH]; simpl; intros H; [discriminate|].
  destruct (k0 =? k) eqn:E; simpl; [reflexivity|].
  simpl in H. rewrite IH; auto.
Qed.

End DictFacts.

(** ** Resolving the label of a group *)

Lemma find_label_some lm nm rn l :
  find_label lm nm rn = Some l ->
  PyDict.mem l lm = true /\ In (l, {| name := nm; roll_no := rn |}) lm.
Proof.
  induction lm as [|[k info] lm IH]; simpl; [discriminate|].
  destruct (String.eqb (name info) nm && String.eqb (roll_no info) rn) eqn:E.
  - intros [= ->]. rewrite Z.eqb_refl. split; [reflexivity|].
    apply andb_true_iff in E as [E1 E2].
    apply String.eqb_eq in E1, E2. destruct info; simpl in *; subst. auto.
  - intros H. destruct (IH H) as [Hm Hin]. rewrite Hm, orb_true_r. auto.
Qed.

Lemma find_label_after_set lm nm rn current_id :
  find_label lm nm rn = None ->
  find_label (PyDict.set current_id {| name := nm; roll_no := rn |} lm) nm rn
  = Some current_id.
Proof.
  induction lm as [|[k info] lm IH]; simpl.
  - intros _. rewrite !String.eqb_refl. reflexivity.
  - destruct (String.eqb (name info) nm && String.eqb (roll_no info) rn) eqn:E;
      [discriminate|].
    intros H. destruct (k =? current_id); simpl.
    + rewrite !String.eqb_refl. reflexivity.
    + rewrite E. auto.
Qed.

(** Registry idempotence: resolving a pair again, in the registry the first
    resolution left, gives the same label and changes nothing.  It holds in
    every state of the registry and of the counter. *)
Lemma resolve_label_idempotent lm current_id nm rn l lm' current_id' :
  resolve_label lm current_id nm rn = (l, lm', current_id') ->
  resolve_label lm' current_id' nm rn = (l, lm', current_id').
Proof.
  unfold resolve_label. destruct (find_label lm nm rn) eqn:E.
  - intros [= <- <- <-]. rewrite E. reflexivity.
  - intros [= <- <- <-]. rewrite (find_label_after_set _ _ _ _ E). reflexivity.
Qed.

(** A pair that already has a label keeps it: nothing is allocated. *)
Lemma resolve_label_reuses lm current_id nm rn l :
  find_label lm nm rn = Some l ->
  resolve_label lm current_id nm rn = (l, lm, current_id).
Proof. unfold resolve_label. intros ->. reflexivity. Qed.

(** With the counter beyond every label of the registry, a new pair gets a
    label that is unused and its entry is appended; the counter stays beyond
    every label. *)
Lemma resolve_label_allocates lm current_id nm rn :
  counter_above lm current_id ->
  find_label lm nm rn = None ->
  PyDict.mem current_id lm = false
  /\ resolve_label lm current_id nm rn
     = (current_id, lm ++ [(current_id, {| name := nm; roll_no := rn |})],
        current_id + 1)
  /\ counter_above (lm ++ [(current_id, {| name := nm; roll_no := rn |})])
                   (current_id + 1).
Proof.
  intros Habove Hnone.
  assert (Hfree : PyDict.mem current_id lm = false).
  { destruct (PyDict.mem current_id lm) eqn:E; [|reflexivity].
    apply mem_keys in E. unfold counter_above in Habove.
    rewrite List.Forall_forall in Habove. apply Habove in E. lia. }
  repeat split; [exact Hfree | |].
  - unfold resolve_label. rewrite Hnone, set_absent by exact Hfree. reflexivity.
  - unfold counter_above, PyDict.keys in *. rewrite map_app.
    apply List.Forall_app. split.
    + eapply List.Forall_impl; [|exact Habove]. simpl. intros. lia.
    + repeat constructor. simpl. lia.
Qed.

Lemma resolve_label_registered lm current_id nm rn l lm' current_id' :
  resolve_label lm current_id nm rn = (l, lm', current_id') ->
  PyDict.mem l lm' = true /\ extends lm lm'.
Proof.
  unfold resolve_label, extends. destruct (find_label lm nm rn) eqn:E.
  - intros [= <- <- <-]. split; [|auto].
    apply (find_label_some _ _ _ _ E).
  - intros [= <- <- <-]. split.
    + rewrite mem_set, Z.eqb_refl. reflexivity.
    + intros k Hk. rewrite mem_set, Hk. apply orb_true_r.
Qed.

(** ** Collecting the samples *)

Section Collect.
Context {cv : cv2}.
Implicit Types (st : scan_state cv) (entry : string * node cv).

Lemma single_row (d : detections) :
  det_len d = 1%nat -> exists face, det_rows d = [face].
Proof.
  destruct d as [|rows]; simpl; [discriminate|].
  destruct rows as [|face [|]]; simpl; try discriminate. eauto.
Qed.

Lemma process_file_registry label st entry :
  sc_labels_map (process_file cv label st entry) = sc_labels_map st
  /\ sc_current_id (process_file cv label st entry) = sc_current_id st.
Proof.
  destruct entry as [file_name n]. unfold process_file.
  destruct (PyStr.endswith_any _ _); [|auto].
  destruct (imread cv n) as [img|]; [|auto].
  destruct (det_len _ =? 1)%nat; [|auto].
  destruct (det_rows _); auto.
Qed.

Lemma process_file_crops label st entry :
  sc_images (process_file cv label st entry)
  = sc_images st ++ map fst (file_crops label entry)
  /\ sc_labels (process_file cv label st entry)
     = sc_labels st ++ map snd (file_crops label entry).
Proof.
  destruct entry as [file_name n]. unfold process_file, file_crops.
  destruct (PyStr.endswith_any _ _); [|simpl; rewrite !app_nil_r; auto].
  destruct (imread cv n) as [img|]; [|simpl; rewrite !app_nil_r; auto].
  destruct (detect_train cv img) as [|rows]; simpl;
    [rewrite !app_nil_r; auto|].
  destruct rows as [|face [|face' rows]]; simpl; rewrite ?app_nil_r; auto.
Qed.

Lemma fold_process_file_registry label listing st :
  sc_labels_map (fold_left (process_file cv label) listing st) = sc_labels_map st
  /\ sc_current_id (fold_left (process_file cv label) listing st)
     = sc_current_id st.
Proof.
  revert st. induction listing as [|entry listing IH]; intros st; simpl; [auto|].
  destruct (IH (process_file cv label st entry)) as [-> ->].
  apply process_file_registry.
Qed.

Lemma fold_process_file_crops label listing st :
  sc_images (fold_left (process_file cv label) listing st)
  = sc_images st ++ map fst (flat_map (file_crops label) listing)
  /\ sc_labels (fold_left (process_file cv label) listing st)
     = sc_labels st ++ map snd (flat_map (file_crops label) listing).
Proof.
  revert st. induction listing as [|entry listing IH]; intros st; simpl.
  - rewrite !app_nil_r. auto.
  - destruct (IH (process_file cv label st entry)) as [-> ->].
    destruct (process_file_crops label st entry) as [-> ->].
    rewrite !map_app, !app_assoc. auto.
Qed.

Lemma file_crops_label label entry :
  Forall (fun l => l = label) (map snd (file_crops label entry)).
Proof.
  destruct entry as [file_name n]. unfold file_crops.
  destruct (PyStr.endswith_any _ _); [|constructor].
  destruct (imread cv n) as [img|]; [|constructor].
  destruct (det_rows _) as [|face [|]]; repeat constructor.
Qed.

Lemma process_dir_registered st d :
  labels_registered st ->
  labels_registered (process_dir cv st d)
  /\ extends (sc_labels_map st) (sc_labels_map (process_dir cv st d)).
Proof.
  intros Hreg. destruct d as [dir_name listing]. unfold process_dir.
  destruct (resolve_label _ _ _ _) as [[label lm] current_id] eqn:E.
  apply resolve_label_registered in E as [Hl Hext].
  unfold labels_registered.
  match goal with |- context [fold_left _ listing ?s] => set (st0 := s) end.
  destruct (fold_process_file_registry label listing st0) as [-> _].
  destruct (fold_process_file_crops label listing st0) as [_ ->].
  subst st0. simpl. split; [|exact Hext].
  apply List.Forall_app. split.
  - eapply List.Forall_impl; [|exact Hreg]. simpl. auto.
  - induction listing as [|entry listing IH]; simpl; [constructor|].
    rewrite map_app. apply List.Forall_app. split; [|exact IH].
    eapply List.Forall_impl; [|apply file_crops_label].
    simpl. intros ? ->. exact Hl.
Qed.

Lemma fold_process_dir_registered dirs st :
  labels_registered st ->
  labels_registered (fold_left (process_dir cv) dirs st)
  /\ extends (sc_labels_map st)
             (sc_labels_map (fold_left (process_dir cv) dirs st)).
Proof.
  revert st. induction dirs as [|d dirs IH]; intros st Hreg; simpl.
  - split; [exact Hreg | intros l H; exact H].
  - destruct (process_dir_registered st d Hreg) as [H1 E1].
    destruct (IH _ H1) as [H2 E2]. split; [exact H2|].
    intros l Hl. auto.
Qed.

Lemma scan_training_dir_registered top st :
  labels_registered st ->
  labels_registered (scan_training_dir cv top st)
  /\ extends (sc_labels_map st) (sc_labels_map (scan_training_dir cv top st)).
Proof.
  unfold scan_training_dir. generalize (os_walk cv top) as items.
  intros items. revert st.
  induction items as [|dirs items IH]; intros st Hreg; simpl.
  - split; [exact Hreg | intros l H; exact H].
  - destruct (fold_process_dir_registered dirs st Hreg) as [H1 E1].
    destruct (IH _ H1) as [H2 E2]. split; [exact H2|].
    intros l Hl. auto.
Qed.

Lemma file_crops_images label label' entry :
  map fst (file_crops label entry) = map fst (file_crops label' entry).
Proof.
  destruct entry as [file_name n]. unfold file_crops.
  destruct (PyStr.endswith_any _ _); [|reflexivity].
  destruct (imread cv n) as [img|]; [|reflexivity].
  destruct (det_rows _) as [|face [|]]; reflexivity.
Qed.

Lemma process_dir_images st d :
  sc_images (process_dir cv st d) = sc_images st ++ dir_crops (snd d).
Proof.
  destruct d as [dir_name listing]. unfold process_dir, dir_crops.
  destruct (resolve_label _ _ _ _) as [[label lm] current_id].
  match goal with |- context [fold_left _ listing ?s] => set (st0 := s) end.
  destruct (fold_process_file_crops label listing st0) as [-> _].
  subst st0. simpl. f_equal.
  induction listing as [|entry listing IH]; simpl; [reflexivity|].
  rewrite !map_app, IH, (file_crops_images label 0). reflexivity.
Qed.

(** The images handed to the recognizer are the crops of the single-face
    images of the groups, in the order of the walk: an image in which the
    detector finds no face or several contributes nothing. *)
Lemma scan_training_dir_images top st :
  sc_images (scan_training_dir cv top st)
  = sc_images st ++ flat_map (fun d => dir_crops (snd d)) (concat (os_walk cv top)).
Proof.
  unfold scan_training_dir. generalize (os_walk cv top) as items.
  intros items. revert st.
  induction items as [|dirs items IH]; intros st; simpl.
  - rewrite app_nil_r. reflexivity.
  - rewrite IH, flat_map_app, app_assoc. f_equal.
    clear IH. revert st. induction dirs as [|d dirs IHd]; intros st; simpl.
    + rewrite app_nil_r. reflexivity.
    + rewrite IHd, process_dir_images, app_assoc. reflexivity.
Qed.

End Collect.

(** ** The counter and the registry

    As long as the counter is beyond every label of the registry, scanning
    the training directory only appends entries: no label changes its
    identity.  That is the case at start-up, after a load and after every
    training that succeeds. *)

Lemma fold_max_bounds (ks : list Z) (k : Z) :
  k <= fold_left Z.max ks k
  /\ Forall (fun x => x <= fold_left Z.max ks k) ks.
Proof.
  revert k. induction ks as [|x ks IH]; intros k; simpl.
  - split; [lia | constructor].
  - destruct (IH (Z.max k x)) as [H1 H2]. split; [lia|].
    constructor; [lia | exact H2].
Qed.

(** Line 54 puts the counter beyond every loaded label. *)
Lemma next_after_above (lm : list (Z * identity)) :
  counter_above lm (next_after lm).
Proof.
  unfold counter_above, next_after, PyDict.max_key.
  destruct (PyDict.keys lm) as [|k ks]; [constructor|].
  destruct (fold_max_bounds ks k) as [H1 H2].
  constructor; [lia|].
  eapply List.Forall_impl; [|exact H2]. simpl. intros. lia.
Qed.

Section Counter.
Context {cv : cv2}.
Implicit Types (st : scan_state cv).

Lemma process_dir_keeps_entries st d :
  counter_above (sc_labels_map st) (sc_current_id st) ->
  counter_above (sc_labels_map (process_dir cv st d))
                (sc_current_id (process_dir cv st d))
  /\ keeps (sc_labels_map st) (sc_labels_map (process_dir cv st d)).
Proof.
  intros Habove. destruct d as [dir_name listing]. unfold process_dir.
  set (who := parse_dir_name dir_name).
  destruct (find_label (sc_labels_map st) (name who) (roll_no who)) as [l|] eqn:E.
  - rewrite (resolve_label_reuses _ (sc_current_id st) _ _ _ E).
    match goal with |- context [fold_left _ listing ?s] => set (st0 := s) end.
    destruct (fold_process_file_registry (cv := cv) l listing st0) as [-> ->].
    subst st0. simpl. split; [exact Habove | intros ? ? H; exact H].
  - destruct (resolve_label_allocates _ _ _ _ Habove E) as (Hfree & -> & Hnext).
    match goal with |- context [fold_left _ listing ?s] => set (st0 := s) end.
    destruct (fold_process_file_registry (cv := cv) (sc_current_id st) listing st0)
      as [-> ->].
    subst st0. simpl. split; [exact Hnext|].
    intros l0 who0 Hget. rewrite <- (set_absent _ _ _ Hfree).
    rewrite get_set_other; [exact Hget|].
    intros ->. assert (PyDict.mem (sc_current_id st) (sc_labels_map st) = true)
      by (apply mem_get; eauto). congruence.
Qed.

Lemma scan_training_dir_keeps_entries top st :
  counter_above (sc_labels_map st) (sc_current_id st) ->
  counter_above (sc_labels_map (scan_training_dir cv top st))
                (sc_current_id (scan_training_dir cv top st))
  /\ keeps (sc_labels_map st) (sc_labels_map (scan_training_dir cv top st)).
Proof.
  unfold scan_training_dir. generalize (os_walk cv top) as items.
  intros items. revert st.
  induction items as [|dirs items IH]; intros st Habove; simpl.
  - split; [exact Habove | intros ? ? H; exact H].
  - assert (Hdirs : counter_above
                      (sc_labels_map (fold_left (process_dir cv) dirs st))
                      (sc_current_id (fold_left (process_dir cv) dirs st))
                    /\ keeps (sc_labels_map st)
                         (sc_labels_map (fold_left (process_dir cv) dirs st))).
    { clear IH. revert st Habove.
      induction dirs as [|d dirs IHd]; intros st Habove; simpl.
      - split; [exact Habove | intros ? ? H; exact H].
      - destruct (process_dir_keeps_entries st d Habove) as [H1 K1].
        destruct (IHd _ H1) as [H2 K2]. split; [exact H2|].
        intros l who H. auto. }
    destruct Hdirs as [H1 K1]. destruct (IH _ H1) as [H2 K2].
    split; [exact H2 | intros l who H; auto].
Qed.

(** From a backend whose counter is beyond every label, a training that
    succeeds keeps every entry of the registry under its label and leaves the
    counter beyond every label. *)
Lemma train_model_keeps_entries dir fault (b : backend cv) b' lg :
  counter_above (labels_map b) (next_label_id b) ->
  train_model cv dir fault b = (true, b', lg) ->
  counter_above (labels_map b') (next_label_id b')
  /\ forall l who, PyDict.get l (labels_map b) = Some who ->
                   PyDict.get l (labels_map b') = Some who.
Proof.
  intros Habove. unfold train_model. destruct dir as [top|]; [|discriminate].
  destruct (detector_empty cv); [discriminate|].
  match goal with |- context [scan_training_dir cv top ?s] => set (st0 := s) end.
  destruct (scan_training_dir_keeps_entries top st0 Habove) as [H1 K1].
  destruct (sc_images (scan_training_dir cv top st0)); [discriminate|].
  destruct fault; try discriminate.
  intros [= <- <-]. simpl. split; [exact H1 | exact K1].
Qed.

End Counter.

(** ** Training *)

Lemma fold_left_concat {A B : Type} (f : A -> B -> A) (items : list (list B)) (a : A) :
  fold_left (fun acc l => fold_left f l acc) items a = fold_left f (concat items) a.
Proof.
  revert a. induction items as [|l items IH]; intros a; simpl; [reflexivity|].
  rewrite fold_left_app. apply IH.
Qed.

Section Samples.
Context {cv : cv2}.
Implicit Types (st : scan_state cv) (d : string * list (string * node cv)).

Lemma process_file_log label st entry :
  forall r, In r (sc_log st) -> In r (sc_log (process_file cv label st entry)).
Proof.
  intros r Hr. destruct entry as [file_name n]. unfold process_file.
  destruct (PyStr.endswith_any _ _); [|exact Hr].
  destruct (imread cv n) as [img|]; [|simpl; apply in_or_app; auto].
  destruct (det_len _ =? 1)%nat; [|simpl; apply in_or_app; auto].
  destruct (det_rows _); exact Hr.
Qed.

Lemma fold_process_file_log label listing :
  forall st r, In r (sc_log st) ->
    In r (sc_log (fold_left (process_file cv label) listing st)).
Proof.
  induction listing as [|entry listing IH]; intros st r Hr; simpl; [exact Hr|].
  apply IH, process_file_log, Hr.
Qed.

Lemma process_file_skip_logged label st (file_name : string) (n : node cv)
    (img : image cv) :
  PyStr.endswith_any (PyStr.lower file_name) image_suffixes = true ->
  imread cv n = Some img ->
  det_len (detect_train cv img) <> 1%nat ->
  In (LogWarning (MsgSkipping file_name (det_len (detect_train cv img))))
     (sc_log (process_file cv label st (file_name, n))).
Proof.
  intros Hext Hread Hne. unfold process_file. rewrite Hext, Hread.
  apply Nat.eqb_neq in Hne. rewrite Hne. simpl.
  apply in_or_app. right. left. reflexivity.
Qed.

Lemma fold_process_file_skip_logged label listing (file_name : string)
    (n : node cv) (img : image cv) :
  In (file_name, n) listing ->
  PyStr.endswith_any (PyStr.lower file_name) image_suffixes = true ->
  imread cv n = Some img ->
  det_len (detect_train cv img) <> 1%nat ->
  forall st,
    In (LogWarning (MsgSkipping file_name (det_len (detect_train cv img))))
       (sc_log (fold_left (process_file cv label) listing st)).
Proof.
  intros Hin Hext Hread Hne.
  induction listing as [|entry listing IH]; intros st; [destruct Hin|].
  simpl. destruct Hin as [-> | Hin].
  - apply fold_process_file_log, process_file_skip_logged; assumption.
  - apply IH, Hin.
Qed.

Lemma process_dir_log st d :
  forall r, In r (sc_log st) -> In r (sc_log (process_dir cv st d)).
Proof.
  intros r Hr. destruct d as [dir_name listing]. unfold process_dir.
  destruct (resolve_label _ _ _ _) as [[label lm] current_id].
  apply fold_process_file_log. simpl. apply in_or_app. auto.
Qed.

Lemma fold_process_dir_log (dirs : list (string * list (string * node cv))) :
  forall st r, In r (sc_log st) ->
    In r (sc_log (fold_left (process_dir cv) dirs st)).
Proof.
  induction dirs as [|d dirs IH]; intros st r Hr; simpl; [exact Hr|].
  apply IH, process_dir_log, Hr.
Qed.

Lemma process_dir_skip_logged st d (file_name : string) (n : node cv)
    (img : image cv) :
  In (file_name, n) (snd d) ->
  PyStr.endswith_any (PyStr.lower file_name) image_suffixes = true ->
  imread cv n = Some img ->
  det_len (detect_train cv img) <> 1%nat ->
  In (LogWarning (MsgSkipping file_name (det_len (detect_train cv img))))
     (sc_log (process_dir cv st d)).
Proof.
  intros Hin Hext Hread Hne. destruct d as [dir_name listing]. unfold process_dir.
  destruct (resolve_label _ _ _ _) as [[label lm] current_id].
  apply fold_process_file_skip_logged with (n := n); assumption.
Qed.

Lemma fold_process_dir_skip_logged
    (dirs : list (string * list (string * node cv))) d (file_name : string)
    (n : node cv) (img : image cv) :
  In d dirs ->
  In (file_name, n) (snd d) ->
  PyStr.endswith_any (PyStr.lower file_name) image_suffixes = true ->
  imread cv n = Some img ->
  det_len (detect_train cv img) <> 1%nat ->
  forall st,
    In (LogWarning (MsgSkipping file_name (det_len (detect_train cv img))))
       (sc_log (fold_left (process_dir cv) dirs st)).
Proof.
  intros Hd Hin Hext Hread Hne.
  induction dirs as [|d0 dirs IH]; intros st; [destruct Hd|].
  simpl. destruct Hd as [-> | Hd].
  - apply fold_process_dir_log, process_dir_skip_logged with (n := n); assumption.
  - apply IH, Hd.
Qed.

(** The samples the loop collects are the pairs of the groups, each group
    under the label it was given. *)
Lemma fold_process_dir_pairs (dirs : list (string * list (string * node cv))) :
  forall st,
    let final := fold_left (process_dir cv) dirs st in
    let groups := resolve_groups (sc_labels_map st) (sc_current_id st) dirs in
    sc_images final = sc_images st ++ map fst (flat_map group_pairs groups)
    /\ sc_labels final = sc_labels st ++ map snd (flat_map group_pairs groups).
Proof.
  induction dirs as [|d dirs IH]; intros st; simpl.
  - rewrite !app_nil_r. auto.
  - specialize (IH (process_dir cv st d)). simpl in IH.
    destruct d as [dir_name listing]. unfold process_dir in *. cbn [fst snd] in *.
    destruct (resolve_label _ _ _ _) as [[label lm] current_id].
    match type of IH with
    | context [fold_left (process_file cv label) listing ?s] => set (st0 := s) in *
    end.
    destruct (fold_process_file_registry (cv := cv) label listing st0) as [Hm Hc].
    destruct (fold_process_file_crops (cv := cv) label listing st0) as [Hi Hl].
    rewrite Hm, Hc in IH. destruct IH as [-> ->].
    rewrite Hi, Hl. subst st0. cbn [sc_images sc_labels sc_labels_map sc_current_id].
    cbn [flat_map]. unfold group_pairs at 1 3. cbn [fst snd].
    rewrite !map_app, !app_assoc. auto.
Qed.

Lemma resolve_groups_dirs (dirs : list (string * list (string * node cv))) :
  forall lm current_id, map fst (resolve_groups lm current_id dirs) = dirs.
Proof.
  induction dirs as [|d dirs IH]; intros lm current_id; simpl; [reflexivity|].
  destruct (resolve_label _ _ _ _) as [[label lm'] current_id'].
  simpl. rewrite IH. reflexivity.
Qed.

Lemma train_model_log top fault (b : backend cv) :
  detector_empty cv = false ->
  forall r,
    In r (sc_log (scan_training_dir cv top
                    {| sc_labels_map := labels_map b;
                       sc_current_id := next_label_id b;
                       sc_images := []; sc_labels := [];
                       sc_log := [LogInfo MsgScanningDir] |})) ->
    In r (snd (train_model cv (Some top) fault b)).
Proof.
  intros Hdet r Hr. unfold train_model. rewrite Hdet.
  destruct (sc_images _); [simpl; apply in_or_app; auto|].
  destruct fault; simpl; apply in_or_app; left; apply in_or_app; auto.
Qed.

(** C5.  In a training, every decodable image of a group's directory
    contributes a (sample, label) pair exactly when one face is detected in
    it: its crop, under the label of its group.  With no face or several it
    contributes nothing and the warning naming the file is in the log of the
    call.  The skip stops nothing: when the call returns [True] the
    recognizer is trained on exactly the pairs of the single-face images, in
    the order of the walk (the labels as the 32-bit integers the recognizer
    stores), and when some image gives a pair and nothing raises, the call
    does return [True]. *)
Theorem training_keeps_single_face_images
    (top : list (string * node cv)) (fault : train_fault) (b : backend cv) :
  detector_empty cv = false ->
  let result := train_model cv (Some top) fault b in
  let groups :=
    resolve_groups (labels_map b) (next_label_id b) (concat (os_walk cv top)) in
  let pairs := flat_map group_pairs groups in
  (forall d l (file_name : string) (n : node cv) (img : image cv),
     In (d, l) groups ->
     In (file_name, n) (snd d) ->
     PyStr.endswith_any (PyStr.lower file_name) image_suffixes = true ->
     imread cv n = Some img ->
     (det_len (detect_train cv img) = 1%nat ->
      exists face, det_rows (detect_train cv img) = [face]
        /\ file_crops l (file_name, n) = [(crop_resize cv img face, l)])
     /\ (det_len (detect_train cv img) <> 1%nat ->
         file_crops l (file_name, n) = []
         /\ In (LogWarning (MsgSkipping file_name (det_len (detect_train cv img))))
               (snd result)))
  /\ (fst (fst result) = true ->
      exists m, face_recognizer (snd (fst result)) = Some m
        /\ trained_images m = map fst pairs
        /\ trained_labels m = map to_int32 (map snd pairs))
  /\ (fault = TrainOk -> pairs <> [] -> fst (fst result) = true).
Proof.
  intros Hdet result groups pairs.
  set (st0 := {| sc_labels_map := labels_map b;
                 sc_current_id := next_label_id b;
                 sc_images := []; sc_labels := [];
                 sc_log := [LogInfo MsgScanningDir] |} : scan_state cv).
  assert (Hscan : scan_training_dir cv top st0
                  = fold_left (process_dir cv) (concat (os_walk cv top)) st0).
  { unfold scan_training_dir. apply fold_left_concat. }
  pose proof (fold_process_dir_pairs (concat (os_walk cv top)) st0) as Hpairs.
  cbn zeta in Hpairs. change (sc_images st0) with (@nil (sample cv)) in Hpairs.
  change (sc_labels st0) with (@nil Z) in Hpairs.
  change (resolve_groups (sc_labels_map st0) (sc_current_id st0)
            (concat (os_walk cv top))) with groups in Hpairs.
  fold pairs in Hpairs. cbn [app] in Hpairs. rewrite <- Hscan in Hpairs.
  destruct Hpairs as [Himages Hlabels].
  split; [|split].
  - intros d l file_name n img Hg Hin Hext Hread. split.
    + intros H1. destruct (single_row _ H1) as [face Hface]. exists face.
      split; [exact Hface|]. unfold file_crops. rewrite Hext, Hread, Hface.
      reflexivity.
    + intros Hne. split.
      * unfold file_crops. rewrite Hext, Hread.
        destruct (detect_train cv img) as [|rows]; [reflexivity|].
        destruct rows as [|face [|face' rows]]; try reflexivity.
        exfalso. apply Hne. reflexivity.
      * subst result. apply train_model_log; [exact Hdet|]. fold st0.
        rewrite Hscan.
        apply fold_process_dir_skip_logged with (d := d) (n := n);
          try assumption.
        rewrite <- (resolve_groups_dirs (concat (os_walk cv top))
                      (labels_map b) (next_label_id b)).
        fold groups. apply (in_map fst _ _ Hg).
  - subst result. unfold train_model. rewrite Hdet. fold st0.
    rewrite Himages. destruct (map fst pairs) as [|x xs] eqn:E; [discriminate|].
    destruct fault; try discriminate. intros _. eexists.
    cbn [fst snd face_recognizer trained_images trained_labels].
    rewrite Hlabels. auto.
  - intros -> Hne. subst result. unfold train_model. rewrite Hdet. fold st0.
    rewrite Himages. destruct (map fst pairs) as [|x xs] eqn:E; [|reflexivity].
    destruct pairs; [congruence | discriminate].
Qed.

End Samples.

Lemma training_keeps_single_face_images_witness :
  exists m,
    face_recognizer Toy.after_first_training = Some m
    /\ trained_images m = [Toy.face_a]
    /\ trained_labels m = [0].
Proof.
  destruct (training_keeps_single_face_images (cv := Toy.cv) Toy.alice_and_bob
              TrainOk Toy.fresh eq_refl) as (_ & Htrained & _).
  exact (Htrained eq_refl).
Defined.

(** When no sample was collected, [train_model()] returns [False] with the
    warning, and of the backend only [labels_map] can differ: the
    recognizer, the counter and the files are those of before. *)
Lemma train_model_without_samples (cv : cv2) top fault (b : backend cv) :
  detector_empty cv = false ->
  let st := scan_training_dir cv top
              {| sc_labels_map := labels_map b;
                 sc_current_id := next_label_id b;
                 sc_images := []; sc_labels := [];
                 sc_log := [LogInfo MsgScanningDir] |} in
  sc_images st = [] ->
  train_model cv (Some top) fault b
  = (false, set_labels_map cv b (sc_labels_map st),
     sc_log st ++ [LogWarning MsgNoValidFaces]).
Proof.
  intros Hdet st Himg. unfold train_model. rewrite Hdet. fold st.
  rewrite Himg. reflexivity.
Qed.

(** An empty training directory leaves the whole backend as it was. *)
Lemma train_model_empty_directory (cv : cv2) fault (b : backend cv) :
  detector_empty cv = false ->
  fst (train_model cv (Some []) fault b) = (false, b).
Proof.
  intros Hdet. unfold train_model. rewrite Hdet. simpl.
  destruct b; reflexivity.
Qed.

(** C4 at its failing input: the backend is fresh and the only group of the
    training directory holds one image without a detectable face.  Training
    reports that nothing could be trained and leaves the recognizer, the
    counter and the files alone, but [labels_map] has gained the entry of the
    group. *)
Theorem no_trainable_data_still_registers :
  let '(ok, b', lg) :=
    train_model Toy.cv (Some Toy.bob_faceless) TrainOk Toy.fresh in
  ok = false
  /\ In (LogWarning MsgNoValidFaces) lg
  /\ face_recognizer b' = face_recognizer Toy.fresh
  /\ LBPH_MODEL_FILE b' = LBPH_MODEL_FILE Toy.fresh
  /\ LABELS_MAP_FILE b' = LABELS_MAP_FILE Toy.fresh
  /\ next_label_id b' = next_label_id Toy.fresh
  /\ labels_map Toy.fresh = []
  /\ labels_map b' = [(0, Toy.bob)]
  /\ labels_map b' <> labels_map Toy.fresh.
Proof.
  vm_compute. repeat split; auto 10. discriminate.
Qed.

(** C7 at its failing input: after the failed training above, label [0]
    belongs to Bob while the counter is still [0]; the next training, on a
    directory with a new group sorted before Bob's, gives that new identity
    label [0] although the highest label was [0], and Bob's label becomes
    [1]. *)
Theorem failed_training_lets_label_be_reassigned :
  PyDict.get 0 (labels_map Toy.after_failed_training) = Some Toy.bob
  /\ next_label_id Toy.after_failed_training = 0
  /\ next_after (labels_map Toy.after_failed_training) = 1
  /\ fst (fst (train_model Toy.cv (Some Toy.alice_and_bob) TrainOk
                 Toy.after_failed_training)) = true
  /\ PyDict.get 0 (labels_map Toy.after_second_training) = Some Toy.alice
  /\ PyDict.get 1 (labels_map Toy.after_second_training) = Some Toy.bob.
Proof.
  vm_compute. repeat split.
Qed.

(** C3 at its failing input: in the registry the failed training left, Alice
    has no label, and resolving her takes label [0], which is Bob's: Bob's
    entry is overwritten and the registry does not grow. *)
Theorem resolve_label_takes_label_in_use :
  let lm := labels_map Toy.after_failed_training in
  let current_id := next_label_id Toy.after_failed_training in
  find_label lm "Alice" "1" = None
  /\ PyDict.mem current_id lm = true
  /\ resolve_label lm current_id "Alice" "1" = (0, [(0, Toy.alice)], 1)
  /\ length (snd (fst (resolve_label lm current_id "Alice" "1"))) = length lm.
Proof.
  vm_compute. repeat split.
Qed.

(** A training that succeeds leaves a recognizer trained on the collected
    samples. *)
Lemma train_model_success_trained (cv : cv2) dir fault (b : backend cv) b' lg :
  train_model cv dir fault b = (true, b', lg) ->
  exists m, face_recognizer b' = Some m.
Proof.
  unfold train_model. destruct dir as [top|]; [|discriminate].
  destruct (detector_empty cv); [discriminate|].
  destruct (sc_images _); [discriminate|].
  destruct fault; try discriminate.
  intros [= <- <-]. simpl. eauto.
Qed.

(** So does [load_or_train_model()], whether it loads or trains. *)
Lemma load_or_train_model_trained (cv : cv2) dir fault (b : backend cv) b' lg :
  load_or_train_model cv dir fault b = (true, b', lg) ->
  exists m, face_recognizer b' = Some m.
Proof.
  unfold load_or_train_model.
  destruct (LBPH_MODEL_FILE b) as [[|m]|], (LABELS_MAP_FILE b) as [[|lm]|];
    try (destruct (train_model cv dir fault _) as [[ok b1] lg1] eqn:E;
         intros [= -> <- <-]; exact (train_model_success_trained _ _ _ _ _ _ E)).
  intros [= <- <-]. simpl. eauto.
Qed.

(** The recognizer stores a label as a signed 32-bit integer: a label in
    that range is stored as it is. *)
Lemma to_int32_fits (l : Z) : fits_int32 l -> to_int32 l = l.
Proof.
  unfold fits_int32, to_int32. intros H.
  rewrite Z.mod_small by lia. lia.
Qed.

Lemma to_int32_range (l : Z) : fits_int32 (to_int32 l).
Proof.
  unfold fits_int32, to_int32.
  pose proof (Z.mod_pos_bound (l + 2147483648) 4294967296 ltac:(lia)). lia.
Qed.

Lemma registered_labels_stored {cv : cv2} (st : scan_state cv) :
  labels_registered st ->
  int32_registry (sc_labels_map st) ->
  map to_int32 (sc_labels st) = sc_labels st.
Proof.
  unfold labels_registered, int32_registry. intros Hreg Hfit.
  induction Hreg as [|l ls Hl _ IH]; [reflexivity|].
  simpl. rewrite IH. f_equal. apply to_int32_fits.
  rewrite List.Forall_forall in Hfit. apply Hfit. apply mem_keys, Hl.
Qed.

(** C8, as the program has it.  Let the labels of the registry after the
    call fit in a signed 32-bit integer, the type the recognizer stores them
    in.  After a training that succeeds, every label of the recognizer's
    trained set has an entry in the registry, and the model and the registry
    written to disk are the ones in memory.  After any training, successful
    or not, the inclusion holds if it held before.  The converse inclusion is
    not kept: the registry also holds the groups that gave no sample and the
    identities of earlier runs. *)
Theorem train_model_trained_labels_registered (cv : cv2) dir fault
    (b : backend cv) ok b' lg :
  train_model cv dir fault b = (ok, b', lg) ->
  int32_registry (labels_map b') ->
  (ok = true ->
   trained_labels_registered b'
   /\ exists m, face_recognizer b' = Some m
        /\ LBPH_MODEL_FILE b' = Some (Intact m)
        /\ LABELS_MAP_FILE b' = Some (Intact (labels_map b')))
  /\ (trained_labels_registered b -> trained_labels_registered b').
Proof.
  unfold train_model. destruct dir as [top|].
  2:{ intros [= <- <- <-] _. split; [discriminate | auto]. }
  destruct (detector_empty cv).
  { intros [= <- <- <-] _. split; [discriminate | auto]. }
  match goal with |- context [scan_training_dir cv top ?s] => set (st0 := s) end.
  assert (Hreg0 : labels_registered st0) by constructor.
  destruct (scan_training_dir_registered top st0 Hreg0) as [Hreg Hext].
  set (st := scan_training_dir cv top st0) in *.
  assert (Hkeep : trained_labels_registered b ->
                  trained_labels_registered (set_labels_map cv b (sc_labels_map st))).
  { unfold trained_labels_registered. simpl.
    destruct (face_recognizer b) as [m|]; [|auto].
    intros H. eapply List.Forall_impl; [|exact H]. simpl. apply Hext. }
  assert (Hstored : int32_registry (sc_labels_map st) ->
                    Forall (fun l => PyDict.mem l (sc_labels_map st) = true)
                      (map to_int32 (sc_labels st))).
  { intros Hfit. rewrite (registered_labels_stored st Hreg Hfit). exact Hreg. }
  destruct (sc_images st) eqn:Himg.
  { intros [= <- <- <-] _. split; [discriminate | exact Hkeep]. }
  destruct fault; intros [= <- <- <-] Hfit; simpl in Hfit;
    (split; [try discriminate
            | first [exact Hkeep | intros _; exact (Hstored Hfit)]]).
  intros _. split; [exact (Hstored Hfit)|]. eexists. simpl. eauto.
Qed.

Lemma train_model_trained_labels_registered_witness :
  trained_labels_registered Toy.after_first_training.
Proof.
  destruct (train_model_trained_labels_registered Toy.cv
              (Some Toy.alice_and_bob) TrainOk Toy.fresh true
              Toy.after_first_training
              (snd (train_model Toy.cv (Some Toy.alice_and_bob) TrainOk Toy.fresh))
              eq_refl
              ltac:(repeat constructor; vm_compute; discriminate))
    as [Hsuccess _].
  exact (proj1 (Hsuccess eq_refl)).
Defined.

(** Without the bound the inclusion fails: the label after the largest
    32-bit one is stored by the recognizer as the smallest, which the
    registry does not hold. *)
Lemma trained_label_beyond_int32_is_not_registered :
  let result := train_model Toy.cv (Some Toy.alice_and_bob) TrainOk
                            Toy.at_int32_limit in
  let b' := snd (fst result) in
  fst (fst result) = true
  /\ labels_map b' = [(2147483647, Toy.bob); (2147483648, Toy.alice)]
  /\ option_map trained_labels (face_recognizer b') = Some [-2147483648]
  /\ ~ trained_labels_registered b'.
Proof.
  cbv zeta. do 3 (split; [reflexivity|]).
  vm_compute. intros H. apply List.Forall_inv in H. discriminate.
Qed.

(** C8 as stated fails: training on a directory where Bob's only image shows
    no face succeeds on Alice's sample, and the registry then holds Bob's
    label [1], which the trained set does not contain. *)
Lemma registry_label_without_sample :
  fst (fst (train_model Toy.cv (Some Toy.alice_and_bob) TrainOk Toy.fresh)) = true
  /\ labels_map Toy.after_first_training = [(0, Toy.alice); (1, Toy.bob)]
  /\ option_map trained_labels (face_recognizer Toy.after_first_training)
     = Some [0]
  /\ ~ registry_labels_trained Toy.after_first_training.
Proof.
  repeat split. vm_compute. intros H.
  apply List.Forall_inv_tail, List.Forall_inv in H. simpl in H.
  destruct H as [H|[]]. discriminate.
Qed.

(** ** The attendance ledger *)

Lemma Qltb_lt (x y : Q) : Qltb x y = true <-> (x < y)%Q.
Proof. unfold Qltb, Qlt. apply Z.ltb_lt. Qed.

Lemma more_than_interval (us : Z) :
  Qltb (inject_Z min_log_interval_seconds) (Qmake us 1000000) = true
  <-> 10 * 1000000 < us.
Proof.
  unfold Qltb, min_log_interval_seconds. simpl. rewrite Z.ltb_lt. lia.
Qed.

(** The guard of lines 151-152: no entry for the key, or more than the
    interval since the stored time. *)
Lemma interval_elapsed_iff now last_logged_dt :
  interval_elapsed now last_logged_dt = true
  <-> last_logged_dt = None
      \/ exists last, last_logged_dt = Some last
           /\ 10 * 1000000 < PyTime.sub_microseconds now last.
Proof.
  unfold interval_elapsed, PyTime.total_seconds.
  destruct last_logged_dt as [last|].
  - rewrite more_than_interval. split.
    + intros H. right. eauto.
    + intros [H|(l & [= <-] & H)]; [discriminate | exact H].
  - split; auto.
Qed.


Section Ledger.
Context {cv : cv2}.
Implicit Types (b : backend cv) (now : PyTime.datetime) (nm rn : string).

Lemma log_attendance_suppressed now fault nm rn b :
  interval_elapsed now
    (attendance_logged_today b !! log_key nm rn (PyTime.strftime_date now))
  = false ->
  log_attendance cv now fault nm rn b = (false, b, []).
Proof. unfold log_attendance. intros ->. reflexivity. Qed.

Lemma log_attendance_accepted now nm rn b :
  interval_elapsed now
    (attendance_logged_today b !! log_key nm rn (PyTime.strftime_date now))
  = true ->
  log_attendance cv now WriteOk nm rn b
  = (true,
     set_ledger cv b
       (<[log_key nm rn (PyTime.strftime_date now) := now]>
          (attendance_logged_today b))
       (Some (with_header (ATTENDANCE_LOG_FILE b) ++ [log_entry now nm rn])),
     [LogInfo (MsgAttendanceMarked nm rn (PyTime.strftime_time now))]).
Proof.
  unfold log_attendance. intros ->.
  destruct (ATTENDANCE_LOG_FILE b); reflexivity.
Qed.

Lemma log_attendance_keeps_model now fault nm rn b :
  face_recognizer (snd (fst (log_attendance cv now fault nm rn b)))
  = face_recognizer b
  /\ labels_map (snd (fst (log_attendance cv now fault nm rn b))) = labels_map b.
Proof.
  unfold log_attendance. destruct (interval_elapsed _ _); [|auto].
  destruct (ATTENDANCE_LOG_FILE b), fault; auto.
Qed.

End Ledger.

(** C2, as the program has it.  A call whose write succeeds appends one
    record and stores [now] under the key exactly when the key has no entry
    or more than ten seconds have passed since the stored time; otherwise
    the call changes nothing, logs nothing and returns [False].  So, after an
    accepted call at [t1], a call for the same identity on the same date at
    most ten seconds later appends nothing, and a call on that date more than
    ten seconds after [t1] appends a second record.  The key holds the date:
    the statement is about calls with the same [strftime] date. *)
Theorem log_attendance_dedup (cv : cv2) (b : backend cv) (nm rn : string)
    (t1 t2 t3 : PyTime.datetime) (fault2 : write_fault) :
  let key := log_key nm rn (PyTime.strftime_date t1) in
  let seen := attendance_logged_today b in
  let accepted :=
    seen !! key = None
    \/ exists last, seen !! key = Some last
         /\ 10 * 1000000 < PyTime.sub_microseconds t1 last in
  let e1 := log_entry t1 nm rn in
  let e3 := log_entry t3 nm rn in
  let b1 := snd (fst (log_attendance cv t1 WriteOk nm rn b)) in
  let b2 := snd (fst (log_attendance cv t2 fault2 nm rn b1)) in
  let b3 := snd (fst (log_attendance cv t3 WriteOk nm rn b2)) in
  (accepted ->
   fst (fst (log_attendance cv t1 WriteOk nm rn b)) = true
   /\ attendance_logged_today b1 = <[key := t1]> seen
   /\ ATTENDANCE_LOG_FILE b1
      = Some (with_header (ATTENDANCE_LOG_FILE b) ++ [e1]))
  /\ (~ accepted ->
      forall fault, log_attendance cv t1 fault nm rn b = (false, b, []))
  /\ (accepted ->
      PyTime.strftime_date t2 = PyTime.strftime_date t1 ->
      PyTime.sub_microseconds t2 t1 <= 10 * 1000000 ->
      PyTime.strftime_date t3 = PyTime.strftime_date t1 ->
      10 * 1000000 < PyTime.sub_microseconds t3 t1 ->
      log_attendance cv t2 fault2 nm rn b1 = (false, b1, [])
      /\ fst (fst (log_attendance cv t3 WriteOk nm rn b2)) = true
      /\ ATTENDANCE_LOG_FILE b3
         = Some (with_header (ATTENDANCE_LOG_FILE b) ++ [e1; e3])).
Proof.
  intros key seen accepted e1 e3 b1 b2 b3.
  assert (Hacc : accepted ->
            log_attendance cv t1 WriteOk nm rn b
            = (true,
               set_ledger cv b (<[key := t1]> seen)
                 (Some (with_header (ATTENDANCE_LOG_FILE b) ++ [e1])),
               [LogInfo (MsgAttendanceMarked nm rn (PyTime.strftime_time t1))])).
  { intros H. apply log_attendance_accepted, interval_elapsed_iff, H. }
  split; [|split].
  - intros H. subst b1. rewrite (Hacc H). simpl. auto.
  - intros H fault. apply log_attendance_suppressed.
    destruct (interval_elapsed t1 _) eqn:E; [|reflexivity].
    apply interval_elapsed_iff in E. contradiction.
  - intros H Hd2 Hle Hd3 Hgt.
    assert (Hb1 : b1 = set_ledger cv b (<[key := t1]> seen)
                    (Some (with_header (ATTENDANCE_LOG_FILE b) ++ [e1]))).
    { subst b1. rewrite (Hacc H). reflexivity. }
    assert (H2 : log_attendance cv t2 fault2 nm rn b1 = (false, b1, [])).
    { apply log_attendance_suppressed. rewrite Hd2, Hb1. simpl. fold key.
      rewrite lookup_insert_eq.
      destruct (interval_elapsed t2 (Some t1)) eqn:E; [|reflexivity].
      apply interval_elapsed_iff in E as [E|(l & [= <-] & E)];
        [discriminate | lia]. }
    assert (Hb2 : b2 = b1) by (subst b2; rewrite H2; reflexivity).
    assert (H3 : log_attendance cv t3 WriteOk nm rn b2
                 = (true,
                    set_ledger cv b2
                      (<[log_key nm rn (PyTime.strftime_date t3) := t3]>
                         (attendance_logged_today b2))
                      (Some (with_header (ATTENDANCE_LOG_FILE b2) ++ [e3])),
                    [LogInfo (MsgAttendanceMarked nm rn
                                (PyTime.strftime_time t3))])).
    { apply log_attendance_accepted, interval_elapsed_iff. right.
      exists t1. rewrite Hb2, Hd3, Hb1. simpl. fold key.
      rewrite lookup_insert_eq. auto. }
    split; [exact H2|]. subst b3. rewrite H3. simpl. split; [reflexivity|].
    rewrite Hb2, Hb1. simpl. rewrite <- app_assoc. reflexivity.
Qed.

Lemma log_attendance_dedup_witness :
  let t1 := Toy.at_time 1 9 0 0 in
  let t2 := Toy.at_time 1 9 0 7 in
  let t3 := Toy.at_time 1 9 0 11 in
  let b1 := snd (fst (log_attendance Toy.cv t1 WriteOk "Alice" "1" Toy.fresh)) in
  let b2 := snd (fst (log_attendance Toy.cv t2 WriteOk "Alice" "1" b1)) in
  let b3 := snd (fst (log_attendance Toy.cv t3 WriteOk "Alice" "1" b2)) in
  ATTENDANCE_LOG_FILE b1
  = Some [log_header; log_entry t1 "Alice" "1"]
  /\ log_attendance Toy.cv t2 WriteOk "Alice" "1" b1 = (false, b1, [])
  /\ ATTENDANCE_LOG_FILE b3
     = Some [log_header; log_entry t1 "Alice" "1"; log_entry t3 "Alice" "1"].
Proof.
  intros t1 t2 t3 b1 b2 b3.
  destruct (log_attendance_dedup Toy.cv Toy.fresh "Alice" "1" t1 t2 t3 WriteOk)
    as (Hfirst & _ & Hnext).
  assert (Hacc : attendance_logged_today Toy.fresh
                   !! log_key "Alice" "1" (PyTime.strftime_date t1) = None
                 \/ exists last,
                      attendance_logged_today Toy.fresh
                        !! log_key "Alice" "1" (PyTime.strftime_date t1)
                      = Some last
                      /\ 10 * 1000000 < PyTime.sub_microseconds t1 last)
    by (left; reflexivity).
  destruct (Hfirst Hacc) as (_ & _ & Hfile1).
  destruct (Hnext Hacc eq_refl ltac:(vm_compute; discriminate) eq_refl
              ltac:(vm_compute; reflexivity)) as (Hsecond & _ & Hfile3).
  split; [exact Hfile1 | split; [exact Hsecond | exact Hfile3]].
Defined.

(** C2 as stated fails across midnight: two calls for the same identity five
    seconds apart, the first on one date and the second on the next, are both
    accepted, and two records are appended within the interval. *)
Lemma two_records_within_interval_across_midnight :
  let t1 := Toy.at_time 1 23 59 58 in
  let t2 := Toy.at_time 2 0 0 3 in
  let b1 := snd (fst (log_attendance Toy.cv t1 WriteOk "Alice" "1" Toy.fresh)) in
  let b2 := snd (fst (log_attendance Toy.cv t2 WriteOk "Alice" "1" b1)) in
  PyTime.sub_microseconds t2 t1 = 5 * 1000000
  /\ fst (fst (log_attendance Toy.cv t1 WriteOk "Alice" "1" Toy.fresh)) = true
  /\ fst (fst (log_attendance Toy.cv t2 WriteOk "Alice" "1" b1)) = true
  /\ ATTENDANCE_LOG_FILE b2
     = Some [log_header; log_entry t1 "Alice" "1"; log_entry t2 "Alice" "1"].
Proof.
  vm_compute. repeat split.
Qed.



(** ** Recognition *)

(** The decision rule: recognized exactly when the score is below the
    threshold and the label has an entry, unknown in every other case. *)
Lemma spec_classify_rule (registry : list (Z * identity)) (label : Z) (score : Q) :
  ((score < inject_Z 80)%Q /\ PyDict.mem label registry = true ->
   exists who, PyDict.get label registry = Some who
     /\ spec_classify registry (label, score) = Recognized who score)
  /\ (~ ((score < inject_Z 80)%Q /\ PyDict.mem label registry = true) ->
      spec_classify registry (label, score) = Unknown score).
Proof.
  unfold spec_classify. split.
  - intros [Hlt Hmem]. apply mem_get in Hmem as [who Hget]. exists who.
    rewrite Hget. apply Qltb_lt in Hlt. rewrite Hlt. auto.
  - intros Hnot. destruct (PyDict.get label registry) as [who|] eqn:Hget;
      [|reflexivity].
    destruct (Qltb score (inject_Z 80)) eqn:Hlt; [|reflexivity].
    exfalso. apply Hnot. split; [apply Qltb_lt, Hlt|].
    apply mem_get. eauto.
Qed.

Section Recognition.
Context {cv : cv2}.

(** The loop of lines 252-269 on a trained recognizer: it never raises, it
    appends one text per face, in order, each being the outcome of that face
    alone, and it leaves the recognizer and the registry as they are. *)
Lemma recognize_faces_results (amb : ambient cv) (gray_frame : image cv)
    (m : lbph cv) (faces : list rect) :
  forall (i : nat) (b : backend cv) results lg,
    face_recognizer b = Some m ->
    exists b' lg',
      recognize_faces cv amb gray_frame faces i b results lg
      = (inr (results
              ++ map (fun face =>
                        outcome_text (face_outcome m (labels_map b) gray_frame face))
                     faces), b', lg')
      /\ face_recognizer b' = Some m
      /\ labels_map b' = labels_map b.
Proof.
  induction faces as [|face faces IH]; intros i b results lg Hm; simpl.
  - rewrite app_nil_r. eauto.
  - rewrite Hm. unfold face_outcome at 1.
    destruct (lbph_predict cv _ _ _) as [label confidence]. simpl.
    destruct (Qltb confidence recognition_threshold
              && PyDict.mem label (labels_map b)) eqn:Hrule.
    + apply andb_true_iff in Hrule as [Hlt Hmem].
      destruct (proj1 (mem_get _ _) Hmem) as [who Hget]. rewrite Hget.
      unfold recognition_threshold in Hlt. rewrite Hlt.
      destruct (log_attendance_keeps_model (clock amb i) (attendance_fault amb i)
                  (name who) (roll_no who) b) as [Hrec Hmap].
      destruct (log_attendance cv _ _ _ _ b) as [[ok b1] lg1]. simpl in *.
      destruct (IH (S i) b1 (results ++ [recognized_text who]) (lg ++ lg1))
        as (b' & lg' & Heq & Hrec' & Hmap'); [congruence|].
      exists b', lg'. rewrite Heq, Hmap, <- app_assoc. simpl.
      repeat split; congruence.
    + destruct (IH (S i) b (results ++ [unknown_text confidence]) lg Hm)
        as (b' & lg' & Heq & Hrec' & Hmap').
      exists b', lg'. rewrite Heq, <- app_assoc. simpl.
      repeat split; try assumption. do 3 f_equal.
      destruct (PyDict.get label (labels_map b)) as [who|] eqn:Hget;
        [|reflexivity].
      unfold recognition_threshold in Hrule.
      destruct (Qltb confidence (inject_Z 80)); [|reflexivity].
      simpl in Hrule.
      assert (PyDict.mem label (labels_map b) = true) by (apply mem_get; eauto).
      congruence.
Qed.

(** A buffer that decodes to a frame is not empty, so the decode of line 240
    returns the frame. *)
Lemma py_imdecode_frame (data : blob cv) (fr : frame cv) :
  imdecode_color cv data = Some fr ->
  py_imdecode cv data = inr (Some fr).
Proof.
  intros Hdec. unfold py_imdecode.
  destruct (empty_buffer cv data) eqn:Hempty; [|rewrite Hdec; reflexivity].
  rewrite (empty_buffer_no_frame cv data Hempty) in Hdec. discriminate.
Qed.

(** An empty tuple from the detector makes the endpoint answer with an error:
    [faces.any()] raises and the handler of line 273 turns it into a 500. *)
Lemma scan_empty_tuple_is_error (data : blob cv) (amb : ambient cv)
    (b : backend cv) fr :
  detector_empty cv = false ->
  PyDict.is_empty (labels_map b) = false ->
  imdecode_color cv data = Some fr ->
  detect_scan cv (cvtColor_gray cv fr) = EmptyTuple ->
  fst (scan_image_endpoint cv (Some data) amb b)
  = ((JsonError
        "An error occurred during scanning: 'tuple' object has no attribute 'any'",
      500), b).
Proof.
  intros Hdet Hmap Hdec Hfaces. unfold scan_image_endpoint, ensure_model.
  rewrite Hdet, Hmap, (py_imdecode_frame _ _ Hdec), Hfaces. reflexivity.
Qed.

(** Were the detector to hand back an array without rows, the endpoint would
    answer "No face detected" with status 200. *)
Lemma scan_empty_array_is_no_face (data : blob cv) (amb : ambient cv)
    (b : backend cv) fr :
  detector_empty cv = false ->
  PyDict.is_empty (labels_map b) = false ->
  imdecode_color cv data = Some fr ->
  detect_scan cv (cvtColor_gray cv fr) = NdArray [] ->
  fst (scan_image_endpoint cv (Some data) amb b)
  = ((JsonMessage "No face detected in the uploaded image.", 200), b).
Proof.
  intros Hdet Hmap Hdec Hfaces. unfold scan_image_endpoint, ensure_model.
  rewrite Hdet, Hmap, (py_imdecode_frame _ _ Hdec), Hfaces. reflexivity.
Qed.

End Recognition.

(** With a trained recognizer in memory once the model is available, for a
    decodable image in which the detector reports faces the endpoint answers
    200 with one text per detected face, in order, each text being the
    outcome of that face alone: recognized, with the identity of the
    registry, exactly when the score of the prediction is below 80 and the
    predicted label has an entry in [labels_map], unknown with its score in
    every other case. *)
Lemma scan_classifies_each_face (cv : cv2) (data : blob cv)
    (amb : ambient cv) (b b1 : backend cv) (lg1 : list log_record)
    (fr : frame cv) (rows : list rect) (m : lbph cv) :
  detector_empty cv = false ->
  ensure_model cv amb b = (true, b1, lg1) ->
  face_recognizer b1 = Some m ->
  imdecode_color cv data = Some fr ->
  detect_scan cv (cvtColor_gray cv fr) = NdArray rows ->
  existsb rect_nonzero rows = true ->
  (exists b' lg,
     scan_image_endpoint cv (Some data) amb b
     = ((JsonMessage
           (PyStr.join " "
              (map (fun face =>
                      outcome_text
                        (face_outcome m (labels_map b1) (cvtColor_gray cv fr) face))
                   rows)),
         200), b', lg))
  /\ (forall label score,
        ((score < inject_Z 80)%Q /\ PyDict.mem label (labels_map b1) = true ->
         exists who, PyDict.get label (labels_map b1) = Some who
           /\ spec_classify (labels_map b1) (label, score) = Recognized who score)
        /\ (~ ((score < inject_Z 80)%Q /\ PyDict.mem label (labels_map b1) = true) ->
            spec_classify (labels_map b1) (label, score) = Unknown score)).
Proof.
  intros Hdet Hready Hm Hdec Hfaces Hany. split.
  - unfold scan_image_endpoint.
    rewrite Hdet, Hready, (py_imdecode_frame _ _ Hdec), Hfaces. simpl.
    rewrite Hany.
    destruct (recognize_faces_results amb (cvtColor_gray cv fr) m rows O b1 []
                ([LogInfo MsgScanRequest] ++ lg1) Hm)
      as (b' & lg' & Heq & _ & _).
    simpl in Heq. simpl. rewrite Heq. eauto.
  - intros label score. apply spec_classify_rule.
Qed.

Lemma scan_classifies_each_face_witness :
  exists b' lg,
    scan_image_endpoint Toy.cv (Toy.upload [Toy.face_a; Toy.face_b]) Toy.calm
                        Toy.fresh
    = ((JsonMessage
          "Recognized: Alice (Roll: 1). Attendance Marked. Detected an Unknown face (Confidence: 1234). Access Denied.",
        200), b', lg).
Proof.
  destruct (scan_classifies_each_face Toy.cv (Some [Toy.face_a; Toy.face_b])
              Toy.calm Toy.fresh Toy.after_first_training
              (snd (ensure_model Toy.cv Toy.calm Toy.fresh))
              [Toy.face_a; Toy.face_b] [Toy.face_a; Toy.face_b]
              (@Build_lbph Toy.cv [Toy.face_a] [0])
              eq_refl eq_refl eq_refl eq_refl eq_refl eq_refl)
    as [Hresp _].
  exact Hresp.
Defined.

(** C1 at its failing input.  The process starts on a training directory
    whose only group, [bob_2], holds one image without a face: the start-up
    training returns [False], yet it has put Bob in the registry, and the
    recognizer is left untrained.  A scan of a decodable upload in which the
    detector reports one face then trains nothing, the guard of line 234
    seeing a registry that is not empty; [predict] raises on the first face,
    no face is classified as recognized or unknown, and the endpoint answers
    with an error and status 500, leaving the backend as it was. *)
Theorem scan_after_failed_training_classifies_nothing :
  let started := startup Toy.cv (Some Toy.bob_faceless) TrainOk Toy.fresh in
  let b := snd (fst started) in
  fst (fst started) = false
  /\ labels_map b = [(0, Toy.bob)]
  /\ face_recognizer b = None
  /\ py_imdecode Toy.cv (Some [Toy.face_a]) = inr (Some [Toy.face_a])
  /\ detect_scan Toy.cv (cvtColor_gray Toy.cv [Toy.face_a]) = NdArray [Toy.face_a]
  /\ ensure_model Toy.cv Toy.calm b = (true, b, [])
  /\ (exists text,
        fst (scan_image_endpoint Toy.cv (Toy.upload [Toy.face_a]) Toy.calm b)
        = ((JsonError text, 500), b))
  /\ (forall results,
        fst (fst (scan_image_endpoint Toy.cv (Toy.upload [Toy.face_a]) Toy.calm b))
        <> (JsonMessage (PyStr.join " " results), 200)).
Proof.
  cbv zeta. do 6 (split; [reflexivity|]). split.
  - eexists. reflexivity.
  - intros results. vm_compute. discriminate.
Qed.

(** C6 at its failing input: a decodable upload in which the detector finds
    no face, sent to a backend that is trained.  The binding hands back the
    empty tuple, [faces.any()] raises, and the endpoint answers with an error
    and status 500 instead of the "no face detected" message. *)
Theorem scan_without_faces_answers_error :
  detect_scan Toy.cv (cvtColor_gray Toy.cv []) = pyopencv_from []
  /\ fst (fst (scan_image_endpoint Toy.cv (Toy.upload []) Toy.calm
                 Toy.after_first_training))
     = (JsonError
          "An error occurred during scanning: 'tuple' object has no attribute 'any'",
        500)
  /\ fst (fst (scan_image_endpoint Toy.cv (Toy.upload []) Toy.calm
                 Toy.after_first_training))
     <> (JsonMessage "No face detected in the uploaded image.", 200).
Proof.
  repeat split. vm_compute. discriminate.
Qed.

(** * Further properties of the backend *)

(** ** The attendance file *)

Lemma log_extended_refl (file : option (list string)) : log_extended file file.
Proof. destruct file; simpl; [exists []; rewrite app_nil_r|]; auto. Qed.

Lemma log_extended_trans (f1 f2 f3 : option (list string)) :
  log_extended f1 f2 -> log_extended f2 f3 -> log_extended f1 f3.
Proof.
  destruct f1 as [w1|], f2 as [w2|], f3 as [w3|]; simpl; try tauto.
  intros [a1 ->] [a2 ->]. exists (a1 ++ a2). rewrite app_assoc. reflexivity.
Qed.

Lemma string_app_cons (c : ascii) (s t : string) :
  (String c s ++ t)%string = String c (s ++ t)%string.
Proof. reflexivity. Qed.
Lemma string_app_nil_r (s : string) : (s ++ EmptyString)%string = s.
Proof.
  induction s as [|c s IH]; [reflexivity|].
  rewrite string_app_cons, IH. reflexivity.
Qed.

Lemma string_app_assoc (s1 s2 s3 : string) :
  ((s1 ++ s2) ++ s3)%string = (s1 ++ (s2 ++ s3))%string.
Proof.
  induction s1 as [|c s1 IH]; [reflexivity|].
  rewrite !string_app_cons, IH. reflexivity.
Qed.


Section LedgerMore.
Context {cv : cv2}.
Implicit Types (b : backend cv) (now : PyTime.datetime) (nm rn : string).


(** X1.  Whatever the clock reading and whichever write fails, when
    [log_attendance] returns [True] the entry is the last line of the file
    (after the header, on a new file) and the key holds [now].  When it
    returns [False] the dedup map is untouched, and the file is as before, or
    was absent and has been created with what the failed header write left
    or with the header alone, or holds its former content (the header, on a
    new file) followed by what the failed append left.  No other key of the
    dedup map, and nothing of the model, changes. *)
Theorem log_attendance_outcomes now fault nm rn b :
  let key := log_key nm rn (PyTime.strftime_date now) in
  let ok := fst (fst (log_attendance cv now fault nm rn b)) in
  let b' := snd (fst (log_attendance cv now fault nm rn b)) in
  (ok = true ->
   attendance_logged_today b' = <[key := now]> (attendance_logged_today b)
   /\ ATTENDANCE_LOG_FILE b'
      = Some (with_header (ATTENDANCE_LOG_FILE b) ++ [log_entry now nm rn]))
  /\ (ok = false ->
      attendance_logged_today b' = attendance_logged_today b
      /\ (ATTENDANCE_LOG_FILE b' = ATTENDANCE_LOG_FILE b
          \/ (ATTENDANCE_LOG_FILE b = None
              /\ exists e residue, fault = HeaderWriteRaises e residue
                   /\ ATTENDANCE_LOG_FILE b' = Some [residue])
          \/ (ATTENDANCE_LOG_FILE b = None
              /\ exists e, fault = AppendRaises e
                   /\ ATTENDANCE_LOG_FILE b' = Some [log_header])
          \/ (exists e residue, fault = AppendWriteRaises e residue
                /\ ATTENDANCE_LOG_FILE b'
                   = Some (with_header (ATTENDANCE_LOG_FILE b) ++ [residue]))))
  /\ (forall other, other <> key ->
        attendance_logged_today b' !! other = attendance_logged_today b !! other)
  /\ face_recognizer b' = face_recognizer b
  /\ labels_map b' = labels_map b
  /\ next_label_id b' = next_label_id b
  /\ LBPH_MODEL_FILE b' = LBPH_MODEL_FILE b
  /\ LABELS_MAP_FILE b' = LABELS_MAP_FILE b.
Proof.
  intros key ok b'. subst ok b'. unfold log_attendance. fold key.
  destruct (interval_elapsed now (attendance_logged_today b !! key)).
  2:{ simpl. repeat split; auto; discriminate. }
  destruct (ATTENDANCE_LOG_FILE b) as [written|] eqn:Hfile, fault; simpl;
    (split; [first [discriminate | intros _; split; reflexivity]|]);
    (split; [first [discriminate | intros _; split; [reflexivity|]; eauto 8]|]);
    (split; [intros other Hne; rewrite ?lookup_insert_ne; auto|]);
    repeat split; reflexivity.
Qed.

Lemma log_attendance_file now fault nm rn b :
  log_extended (ATTENDANCE_LOG_FILE b)
    (ATTENDANCE_LOG_FILE (snd (fst (log_attendance cv now fault nm rn b))))
  /\ (ATTENDANCE_LOG_FILE b <> None ->
      headed (ATTENDANCE_LOG_FILE b) ->
      headed (ATTENDANCE_LOG_FILE (snd (fst (log_attendance cv now fault nm rn b))))).
Proof.
  unfold log_attendance.
  destruct (interval_elapsed _ _).
  2:{ simpl. split; [apply log_extended_refl | auto]. }
  destruct (ATTENDANCE_LOG_FILE b) as [written|] eqn:Hfile, fault; simpl;
    rewrite ?Hfile; simpl; (split; [|intros Hsome; try congruence]); eauto;
    try (exists []; rewrite app_nil_r; reflexivity);
    try (intros [rest ->]; eexists; simpl; reflexivity).
Qed.


End LedgerMore.


Lemma log_attendance_outcomes_witness :
  let b' := snd (fst (log_attendance Toy.cv ToyIO.noon WriteOk "Alice" "1"
                        Toy.fresh)) in
  attendance_logged_today b'
  = <[log_key "Alice" "1" (PyTime.strftime_date ToyIO.noon) := ToyIO.noon]> ∅
  /\ ATTENDANCE_LOG_FILE b'
     = Some [log_header; log_entry ToyIO.noon "Alice" "1"].
Proof.
  intros b'.
  destruct (log_attendance_outcomes (cv := Toy.cv) ToyIO.noon WriteOk
              "Alice" "1" Toy.fresh) as (Htrue & _).
  exact (Htrue eq_refl).
Defined.

(** ** Group tags and dedup keys *)

Lemma cased_is_not_punctuation (c : ascii) :
  PyStr.is_lower c || PyStr.is_upper c = true ->
  Ascii.eqb c "_" = false /\ Ascii.eqb c "-" = false
  /\ Ascii.eqb (PyStr.to_upper c) "_" = false
  /\ Ascii.eqb (PyStr.to_upper c) "-" = false
  /\ Ascii.eqb (PyStr.to_lower c) "_" = false
  /\ Ascii.eqb (PyStr.to_lower c) "-" = false.
Proof.
  destruct c as [[] [] [] [] [] [] [] []]; vm_compute;
    first [discriminate | intros _; repeat split].
Qed.

Lemma title_from_contains (sep : ascii) (prev : bool) (s : string) :
  sep = "_"%char \/ sep = "-"%char ->
  PyStr.contains sep (PyStr.title_from prev s) = PyStr.contains sep s.
Proof.
  intros Hsep. revert prev.
  induction s as [|c s IH]; intros prev; simpl; [reflexivity|].
  destruct (PyStr.is_lower c || PyStr.is_upper c) eqn:Hcased; simpl.
  - destruct (cased_is_not_punctuation c Hcased) as (H1 & H2 & H3 & H4 & H5 & H6).
    rewrite IH.
    destruct Hsep as [-> | ->], prev; rewrite ?H1, ?H2, ?H3, ?H4, ?H5, ?H6;
      reflexivity.
  - rewrite IH. reflexivity.
Qed.

Lemma replace_hyphen_contains (s : string) :
  PyStr.contains "-" (PyStr.replace "-" " " s) = false
  /\ PyStr.contains "_" (PyStr.replace "-" " " s) = PyStr.contains "_" s.
Proof.
  induction s as [|c s [IH1 IH2]]; simpl; [auto|].
  rewrite IH1, IH2. destruct (Ascii.eqb c "-") eqn:E; simpl.
  - apply Ascii.eqb_eq in E. subst c. auto.
  - rewrite E. auto.
Qed.

Lemma split_segments_without_separator (sep : ascii) (s : string) :
  Forall (fun seg => PyStr.contains sep seg = false) (PyStr.split sep s).
Proof.
  induction s as [|c s IH]; simpl; [repeat constructor|].
  destruct (Ascii.eqb c sep) eqn:E; [constructor; auto|].
  destruct (PyStr.split sep s) as [|seg segs]; [repeat constructor; simpl|].
  - rewrite E. reflexivity.
  - inversion IH; subst. constructor; [simpl; rewrite E|]; auto.
Qed.

Lemma parse_dir_name_segments_free (dir_name : string) :
  PyStr.contains "_" (name (parse_dir_name dir_name)) = false
  /\ PyStr.contains "_" (roll_no (parse_dir_name dir_name)) = false.
Proof.
  unfold parse_dir_name. simpl.
  pose proof (split_segments_without_separator "_" dir_name) as Hsegs.
  pose proof (split_not_nil "_" dir_name) as Hne.
  destruct (PyStr.split "_" dir_name) as [|first rest]; [congruence|].
  inversion Hsegs as [|? ? Hfirst Hrest]; subst. simpl.
  unfold PyStr.title. rewrite title_from_contains by auto.
  destruct (replace_hyphen_contains first) as [_ ->].
  split; [exact Hfirst|].
  destruct rest as [|second rest]; [reflexivity|].
  inversion Hrest; subst. assumption.
Qed.

(** X3.  Whatever the directory name, the parser never gives a name with an
    underscore or a hyphen in it, nor a roll number with an underscore. *)
Theorem parse_dir_name_charset (dir_name : string) :
  PyStr.contains "_" (name (parse_dir_name dir_name)) = false
  /\ PyStr.contains "-" (name (parse_dir_name dir_name)) = false
  /\ PyStr.contains "_" (roll_no (parse_dir_name dir_name)) = false.
Proof.
  unfold parse_dir_name. simpl.
  pose proof (split_segments_without_separator "_" dir_name) as Hsegs.
  pose proof (split_not_nil "_" dir_name) as Hne.
  destruct (PyStr.split "_" dir_name) as [|first rest]; [congruence|].
  inversion Hsegs as [|? ? Hfirst Hrest]; subst. simpl.
  unfold PyStr.title.
  rewrite !title_from_contains by auto.
  destruct (replace_hyphen_contains first) as [-> ->].
  repeat split; [exact Hfirst|].
  destruct rest as [|second rest]; [reflexivity|].
  inversion Hrest; subst. assumption.
Qed.

Lemma append_separator_inj (n n' x x' : string) :
  PyStr.contains "_" n = false ->
  PyStr.contains "_" n' = false ->
  (n ++ String "_" x)%string = (n' ++ String "_" x')%string ->
  n = n' /\ x = x'.
Proof.
  revert n'. induction n as [|c n IH]; intros [|c' n'] Hn Hn' Heq.
  - injection Heq as ->. auto.
  - rewrite string_app_cons in Heq. injection Heq as <- _.
    simpl in Hn'. discriminate.
  - rewrite string_app_cons in Heq. injection Heq as -> _.
    simpl in Hn. discriminate.
  - rewrite !string_app_cons in Heq. injection Heq as <- Heq.
    simpl in Hn, Hn'. apply orb_false_iff in Hn as [_ Hn].
    apply orb_false_iff in Hn' as [_ Hn'].
    destruct (IH n' Hn Hn' Heq) as [-> ->]. auto.
Qed.

(** X4.  The dedup key of line 148 tells apart the identities the trainer
    produces: two group tags and two dates give the same key only when the
    parsed identities and the dates are equal, so one identity never
    suppresses the attendance of another. *)
Theorem log_key_of_parsed_identities_inj (tag tag' date date' : string) :
  log_key (name (parse_dir_name tag)) (roll_no (parse_dir_name tag)) date
  = log_key (name (parse_dir_name tag')) (roll_no (parse_dir_name tag')) date' ->
  parse_dir_name tag = parse_dir_name tag' /\ date = date'.
Proof.
  destruct (parse_dir_name_segments_free tag) as (Hn & Hr).
  destruct (parse_dir_name_segments_free tag') as (Hn' & Hr').
  destruct (parse_dir_name tag) as [n r], (parse_dir_name tag') as [n' r'].
  simpl in *. unfold log_key. intros Heq.
  apply append_separator_inj in Heq as [-> Heq]; [|assumption..].
  apply append_separator_inj in Heq as [-> ->]; [|assumption..].
  auto.
Qed.

Lemma log_key_of_parsed_identities_inj_witness :
  parse_dir_name "alice-b_1" = parse_dir_name "Alice-B_1_x".
Proof.
  exact (proj1 (log_key_of_parsed_identities_inj "alice-b_1" "Alice-B_1_x"
                  "2024-03-01" "2024-03-01" eq_refl)).
Defined.

(** ** Training: what the recognizer is trained on *)

Lemma find_label_app lm rest nm rn l :
  find_label lm nm rn = Some l -> find_label (lm ++ rest) nm rn = Some l.
Proof.
  induction lm as [|[k info] lm IH]; simpl; [discriminate|].
  destruct (String.eqb (name info) nm && String.eqb (roll_no info) rn); auto.
Qed.

Section Labels.
Context {cv : cv2}.
Implicit Types (st : scan_state cv) (d : string * list (string * node cv)).

Lemma file_crops_label_const (l : Z) (entry : string * node cv) :
  map snd (file_crops l entry) = map (fun _ => l) (map fst (file_crops 0 entry)).
Proof.
  destruct entry as [file_name n]. unfold file_crops.
  destruct (PyStr.endswith_any _ _); [|reflexivity].
  destruct (imread cv n) as [img|]; [|reflexivity].
  destruct (det_rows _) as [|face [|]]; reflexivity.
Qed.

Lemma file_crops_labels_const (l : Z) (listing : list (string * node cv)) :
  map snd (flat_map (file_crops l) listing)
  = map (fun _ => l) (dir_crops listing).
Proof.
  unfold dir_crops. induction listing as [|entry listing IH]; [reflexivity|].
  cbn [flat_map]. rewrite !map_app, IH, file_crops_label_const. reflexivity.
Qed.

Lemma process_dir_labels st d :
  counter_above (sc_labels_map st) (sc_current_id st) ->
  exists l rest,
    sc_labels_map (process_dir cv st d) = sc_labels_map st ++ rest
    /\ group_label (sc_labels_map (process_dir cv st d)) (fst d) = Some l
    /\ sc_labels (process_dir cv st d)
       = sc_labels st ++ map (fun _ => l) (dir_crops (snd d)).
Proof.
  intros Habove. destruct d as [dir_name listing]. unfold process_dir, group_label.
  simpl fst. simpl snd. set (who := parse_dir_name dir_name).
  destruct (find_label (sc_labels_map st) (name who) (roll_no who)) as [l|] eqn:E.
  - rewrite (resolve_label_reuses _ (sc_current_id st) _ _ _ E).
    match goal with |- context [fold_left _ listing ?s] => set (st0 := s) end.
    destruct (fold_process_file_registry (cv := cv) l listing st0) as [-> _].
    destruct (fold_process_file_crops (cv := cv) l listing st0) as [_ ->].
    subst st0. simpl. exists l, []. rewrite app_nil_r, file_crops_labels_const.
    auto.
  - destruct (resolve_label_allocates _ _ _ _ Habove E) as (Hfree & -> & _).
    match goal with |- context [fold_left _ listing ?s] => set (st0 := s) end.
    destruct (fold_process_file_registry (cv := cv) (sc_current_id st) listing st0)
      as [-> _].
    destruct (fold_process_file_crops (cv := cv) (sc_current_id st) listing st0)
      as [_ ->].
    subst st0. simpl. eexists (sc_current_id st), _.
    rewrite file_crops_labels_const. repeat split.
    rewrite <- (set_absent _ _ _ Hfree). apply find_label_after_set, E.
Qed.

Lemma fold_process_dir_labels (dirs : list (string * list (string * node cv))) :
  forall st,
    counter_above (sc_labels_map st) (sc_current_id st) ->
    let final := fold_left (process_dir cv) dirs st in
    (exists rest, sc_labels_map final = sc_labels_map st ++ rest)
    /\ map Some (sc_labels final)
       = map Some (sc_labels st) ++ flat_map (dir_labels (sc_labels_map final)) dirs
    /\ Forall (fun d => exists l, group_label (sc_labels_map final) (fst d) = Some l)
              dirs.
Proof.
  induction dirs as [|d dirs IH]; intros st Habove; simpl.
  - rewrite app_nil_r. repeat split; [exists []; rewrite app_nil_r|]; auto.
  - destruct (process_dir_labels st d Habove) as (l & rest1 & Hmap & Hlabel & Hlabels).
    destruct (process_dir_keeps_entries st d Habove) as [Habove1 _].
    destruct (IH (process_dir cv st d) Habove1) as ([rest2 Hmap2] & Hlabels2 & Hall).
    assert (Hstable : group_label
                        (sc_labels_map (fold_left (process_dir cv) dirs
                                          (process_dir cv st d))) (fst d) = Some l).
    { rewrite Hmap2. unfold group_label in *. apply find_label_app, Hlabel. }
    repeat split.
    + exists (rest1 ++ rest2). rewrite Hmap2, Hmap, app_assoc. reflexivity.
    + rewrite Hlabels2, Hlabels, map_app, <- app_assoc. f_equal. f_equal.
      unfold dir_labels. rewrite Hstable, map_map. reflexivity.
    + constructor; [eauto | exact Hall].
Qed.

(** X5.  From a backend whose counter is beyond every label, a training that
    succeeds and leaves a registry whose labels fit in a signed 32-bit
    integer trains the recognizer on exactly the crops of the single-face
    images of the groups met in the walk, in order, and every crop carries
    the label under which the registry it leaves holds the identity of its
    group; every group met has such a label, and there are as many labels as
    images. *)
Theorem train_model_samples_carry_group_labels
    (top : list (string * node cv)) fault (b b' : backend cv) lg :
  counter_above (labels_map b) (next_label_id b) ->
  train_model cv (Some top) fault b = (true, b', lg) ->
  int32_registry (labels_map b') ->
  exists m,
    face_recognizer b' = Some m
    /\ trained_images m
       = flat_map (fun d => dir_crops (snd d)) (concat (os_walk cv top))
    /\ map Some (trained_labels m)
       = flat_map (dir_labels (labels_map b')) (concat (os_walk cv top))
    /\ length (trained_images m) = length (trained_labels m)
    /\ Forall (fun d => exists l, group_label (labels_map b') (fst d) = Some l)
              (concat (os_walk cv top)).
Proof.
  intros Habove. unfold train_model.
  destruct (detector_empty cv); [discriminate|].
  match goal with |- context [scan_training_dir cv top ?s] => set (st0 := s) end.
  pose proof (scan_training_dir_images (cv := cv) top st0) as Himages.
  assert (Hlabels := fold_process_dir_labels (concat (os_walk cv top)) st0 Habove).
  assert (Hreg : labels_registered (scan_training_dir cv top st0)).
  { apply scan_training_dir_registered. constructor. }
  unfold scan_training_dir in *. rewrite fold_left_concat in *.
  set (final := fold_left (process_dir cv) (concat (os_walk cv top)) st0) in *.
  destruct Hlabels as (_ & Hlabels & Hall).
  destruct (sc_images final) as [|img imgs] eqn:E; [discriminate|].
  destruct fault; try discriminate.
  intros [= <- <-] Hfit. eexists. cbn [face_recognizer labels_map] in *.
  split; [reflexivity|]. cbn [trained_images trained_labels].
  rewrite (registered_labels_stored final Hreg Hfit).
  split; [exact Himages|]. split; [exact Hlabels|]. split; [|exact Hall].
  apply (f_equal (@length _)) in Hlabels. rewrite length_map in Hlabels.
  rewrite Hlabels, Himages.
  change (sc_images st0) with (@nil (sample cv)).
  change (sc_labels st0) with (@nil Z). cbn [map app].
  generalize (sc_labels_map final) as lm. clear. intros lm.
  induction (concat (os_walk cv top)) as [|d ds IH]; [reflexivity|].
  cbn [flat_map]. rewrite !length_app, IH. unfold dir_labels.
  rewrite length_map. reflexivity.
Qed.

End Labels.

Lemma train_model_samples_carry_group_labels_witness :
  exists m,
    face_recognizer Toy.after_first_training = Some m
    /\ trained_images m = [Toy.face_a]
    /\ map Some (trained_labels m) = [Some 0].
Proof.
  destruct (train_model_samples_carry_group_labels (cv := Toy.cv)
              Toy.alice_and_bob TrainOk Toy.fresh Toy.after_first_training
              (snd (train_model Toy.cv (Some Toy.alice_and_bob) TrainOk Toy.fresh))
              (List.Forall_nil _) eq_refl
              ltac:(repeat constructor; vm_compute; discriminate))
    as (m & Hm & Himg & Hlab & _).
  exists m. split; [exact Hm | split; [exact Himg | exact Hlab]].
Defined.

(** ** Training: persistence and failure *)

Lemma fold_max_below (ks : list Z) (k c : Z) :
  k < c -> Forall (fun x => x < c) ks -> fold_left Z.max ks k < c.
Proof.
  revert k. induction ks as [|x ks IH]; intros k Hk Hall; simpl; [exact Hk|].
  inversion Hall; subst. apply IH; [lia | assumption].
Qed.

Lemma next_after_snoc (lm : list (Z * identity)) (current_id : Z) (who : identity) :
  counter_above lm current_id ->
  next_after (lm ++ [(current_id, who)]) = current_id + 1.
Proof.
  unfold counter_above, next_after, PyDict.max_key, PyDict.keys.
  rewrite map_app. destruct lm as [|[k x] lm]; simpl; [reflexivity|].
  intros Hall. inversion Hall as [|? ? Hk Hrest]; subst.
  rewrite fold_left_app. simpl.
  pose proof (fold_max_below (map fst lm) k current_id Hk Hrest) as Hlt. lia.
Qed.

Section Persistence.
Context {cv : cv2}.
Implicit Types (st : scan_state cv) (b : backend cv).

Lemma process_dir_exact st d :
  sc_current_id st = next_after (sc_labels_map st) ->
  counter_above (sc_labels_map st) (sc_current_id st) ->
  sc_current_id (process_dir cv st d)
  = next_after (sc_labels_map (process_dir cv st d)).
Proof.
  intros Hexact Habove. destruct d as [dir_name listing]. unfold process_dir.
  set (who := parse_dir_name dir_name).
  destruct (find_label (sc_labels_map st) (name who) (roll_no who)) as [l|] eqn:E.
  - rewrite (resolve_label_reuses _ (sc_current_id st) _ _ _ E).
    match goal with |- context [fold_left _ listing ?s] => set (st0 := s) end.
    destruct (fold_process_file_registry (cv := cv) l listing st0) as [-> ->].
    exact Hexact.
  - destruct (resolve_label_allocates _ _ _ _ Habove E) as (_ & -> & _).
    match goal with |- context [fold_left _ listing ?s] => set (st0 := s) end.
    destruct (fold_process_file_registry (cv := cv) (sc_current_id st) listing st0)
      as [-> ->].
    subst st0. simpl. symmetry. apply next_after_snoc, Habove.
Qed.

Lemma scan_training_dir_exact top st :
  sc_current_id st = next_after (sc_labels_map st) ->
  counter_above (sc_labels_map st) (sc_current_id st) ->
  sc_current_id (scan_training_dir cv top st)
  = next_after (sc_labels_map (scan_training_dir cv top st)).
Proof.
  unfold scan_training_dir. rewrite fold_left_concat.
  generalize (concat (os_walk cv top)) as dirs. intros dirs. revert st.
  induction dirs as [|d dirs IH]; intros st Hexact Habove; simpl; [exact Hexact|].
  apply IH; [apply process_dir_exact | apply process_dir_keeps_entries];
    assumption.
Qed.

Lemma train_model_success_files dir fault b b' lg :
  train_model cv dir fault b = (true, b', lg) ->
  exists m, face_recognizer b' = Some m
    /\ LBPH_MODEL_FILE b' = Some (Intact m)
    /\ LABELS_MAP_FILE b' = Some (Intact (labels_map b'))
    /\ ATTENDANCE_LOG_FILE b' = ATTENDANCE_LOG_FILE b.
Proof.
  unfold train_model. destruct dir as [top|]; [|discriminate].
  destruct (detector_empty cv); [discriminate|].
  destruct (sc_images _); [discriminate|].
  destruct fault; try discriminate.
  intros [= <- <-]. simpl. eauto.
Qed.

Lemma train_model_success_exact dir fault b b' lg :
  counter_exact b ->
  train_model cv dir fault b = (true, b', lg) ->
  counter_exact b'.
Proof.
  intros [Hexact Habove] Htrain. split.
  - revert Htrain. unfold train_model. destruct dir as [top|]; [|discriminate].
    destruct (detector_empty cv); [discriminate|].
    match goal with |- context [scan_training_dir cv top ?s] => set (st0 := s) end.
    pose proof (scan_training_dir_exact top st0 Hexact Habove) as H.
    destruct (sc_images _); [discriminate|].
    destruct fault; try discriminate.
    intros [= <- <-]. exact H.
  - apply (train_model_keeps_entries dir fault b b' lg Habove Htrain).
Qed.

(** X6.  What a successful training saved is what a new process gets back:
    after [train_model()] returned [True], a process that starts on the files
    it left loads them ([load_or_train_model()] returns [True] without
    looking at the training directory) and holds the same recognizer and the
    same registry, with the files unchanged; the dedup map starts empty; and
    when the counter was exact before the training, the loaded counter is the
    one the training stored. *)
Theorem trained_state_survives_restart dir fault b b' lg dir2 fault2 :
  train_model cv dir fault b = (true, b', lg) ->
  let b2 := snd (fst (startup cv dir2 fault2 b')) in
  fst (fst (startup cv dir2 fault2 b')) = true
  /\ face_recognizer b2 = face_recognizer b'
  /\ labels_map b2 = labels_map b'
  /\ LBPH_MODEL_FILE b2 = LBPH_MODEL_FILE b'
  /\ LABELS_MAP_FILE b2 = LABELS_MAP_FILE b'
  /\ ATTENDANCE_LOG_FILE b2 = ATTENDANCE_LOG_FILE b'
  /\ attendance_logged_today b2 = ∅
  /\ (counter_exact b -> next_label_id b2 = next_label_id b').
Proof.
  intros Htrain.
  destruct (train_model_success_files _ _ _ _ _ Htrain) as (m & Hm & Hfile & Hlabels & _).
  unfold startup, load_or_train_model. cbn [imported LBPH_MODEL_FILE LABELS_MAP_FILE].
  rewrite Hfile, Hlabels. cbn. rewrite Hm. repeat split; auto.
  intros Hexact.
  destruct (train_model_success_exact _ _ _ _ _ Hexact Htrain) as [-> _].
  reflexivity.
Qed.

(** X7.  A training that returns [False], for whatever reason, leaves the
    counter, the dedup map and the attendance file as they were and removes
    no label from the registry.  The labels file is as it was unless saving
    it failed once the file had been opened, which leaves it unreadable; the
    model file is as it was unless writing it failed once it had been opened,
    which leaves it unreadable, or the model was written and saving the
    labels then failed, which leaves the new model in it. *)
Theorem train_model_failure_keeps dir fault b b' lg :
  train_model cv dir fault b = (false, b', lg) ->
  next_label_id b' = next_label_id b
  /\ attendance_logged_today b' = attendance_logged_today b
  /\ ATTENDANCE_LOG_FILE b' = ATTENDANCE_LOG_FILE b
  /\ extends (labels_map b) (labels_map b')
  /\ (LABELS_MAP_FILE b' = LABELS_MAP_FILE b
      \/ exists e, fault = SaveRaisesPartial e
           /\ LABELS_MAP_FILE b' = Some Corrupt)
  /\ (LBPH_MODEL_FILE b' = LBPH_MODEL_FILE b
      \/ (exists e, fault = WriteRaisesPartial e
            /\ LBPH_MODEL_FILE b' = Some Corrupt)
      \/ (exists e m, (fault = SaveRaises e \/ fault = SaveRaisesPartial e)
            /\ face_recognizer b' = Some m
            /\ LBPH_MODEL_FILE b' = Some (Intact m))).
Proof.
  unfold train_model. destruct dir as [top|].
  2:{ intros [= <- <-]. repeat split; auto. intros l H; exact H. }
  destruct (detector_empty cv).
  { intros [= <- <-]. repeat split; auto. intros l H; exact H. }
  match goal with |- context [scan_training_dir cv top ?s] => set (st0 := s) end.
  assert (Hreg0 : labels_registered st0) by constructor.
  destruct (scan_training_dir_registered top st0 Hreg0) as [_ Hext].
  destruct (sc_images _).
  { intros [= <- <-]. simpl. repeat split; auto. }
  destruct fault; intros [= <- <-]; simpl;
    (split; [reflexivity|]); (split; [reflexivity|]); (split; [reflexivity|]);
    (split; [exact Hext|]); split; eauto 10.
Qed.

End Persistence.

Lemma trained_state_survives_restart_witness :
  let b2 := snd (fst (startup Toy.cv None TrainOk Toy.after_first_training)) in
  labels_map b2 = [(0, Toy.alice); (1, Toy.bob)] /\ next_label_id b2 = 2.
Proof.
  intros b2.
  destruct (trained_state_survives_restart (cv := Toy.cv)
              (Some Toy.alice_and_bob) TrainOk Toy.fresh Toy.after_first_training
              (snd (train_model Toy.cv (Some Toy.alice_and_bob) TrainOk Toy.fresh))
              None TrainOk eq_refl)
    as (_ & _ & Hmap & _ & _ & _ & _ & Hcounter).
  split; [exact Hmap|].
  exact (Hcounter (conj eq_refl (List.Forall_nil _))).
Defined.

Lemma train_model_failure_keeps_witness :
  next_label_id Toy.after_failed_training = 0
  /\ ATTENDANCE_LOG_FILE Toy.after_failed_training = None.
Proof.
  destruct (train_model_failure_keeps (cv := Toy.cv) (Some Toy.bob_faceless)
              TrainOk Toy.fresh Toy.after_failed_training
              (snd (train_model Toy.cv (Some Toy.bob_faceless) TrainOk Toy.fresh))
              eq_refl)
    as (Hcounter & _ & Hfile & _).
  split; [exact Hcounter | exact Hfile].
Defined.

(** ** The scan route beyond classification *)

Section ScanMore.
Context {cv : cv2}.
Implicit Types (b : backend cv) (amb : ambient cv).

Lemma log_attendance_frame now fault nm rn b :
  let b' := snd (fst (log_attendance cv now fault nm rn b)) in
  face_recognizer b' = face_recognizer b
  /\ labels_map b' = labels_map b
  /\ next_label_id b' = next_label_id b
  /\ LBPH_MODEL_FILE b' = LBPH_MODEL_FILE b
  /\ LABELS_MAP_FILE b' = LABELS_MAP_FILE b.
Proof.
  unfold log_attendance. destruct (interval_elapsed _ _); [|simpl; auto 6].
  destruct (ATTENDANCE_LOG_FILE b), fault; simpl; auto 6.
Qed.

(** The outcome of the loop (the texts, or the exception) is a function of
    the recognizer and the registry alone. *)
Lemma recognize_faces_outcome amb1 amb2 (gray_frame : image cv) (faces : list rect) :
  forall i1 i2 b1 b2 results lg1 lg2,
    same_model b1 b2 ->
    fst (fst (recognize_faces cv amb1 gray_frame faces i1 b1 results lg1))
    = fst (fst (recognize_faces cv amb2 gray_frame faces i2 b2 results lg2)).
Proof.
  induction faces as [|face faces IH]; intros i1 i2 b1 b2 results lg1 lg2 [Hrec Hmap];
    simpl; [reflexivity|].
  rewrite <- Hrec, <- Hmap.
  destruct (face_recognizer b1) as [m|] eqn:Hm; [|reflexivity].
  destruct (lbph_predict cv _ _ _) as [label confidence].
  destruct (Qltb confidence recognition_threshold && PyDict.mem label (labels_map b1));
    [|apply IH; split; congruence].
  destruct (PyDict.get label (labels_map b1)) as [who|] eqn:Hget; [|reflexivity].
  pose proof (log_attendance_frame (clock amb1 i1) (attendance_fault amb1 i1)
                (name who) (roll_no who) b1) as (H1 & H1' & _).
  pose proof (log_attendance_frame (clock amb2 i2) (attendance_fault amb2 i2)
                (name who) (roll_no who) b2) as (H2 & H2' & _).
  destruct (log_attendance cv (clock amb1 i1) _ _ _ b1) as [[ok1 b1'] lg1'].
  destruct (log_attendance cv (clock amb2 i2) _ _ _ b2) as [[ok2 b2'] lg2'].
  simpl in *. apply IH. split; congruence.
Qed.

Lemma log_extended_present (before after : option (list string)) :
  log_extended before after -> before <> None -> after <> None.
Proof.
  destruct before, after; simpl; intros H Hsome; congruence || contradiction.
Qed.

(** The loop changes nothing of the model, whether it ends or raises, and
    only adds to the attendance file. *)
Lemma recognize_faces_frame amb (gray_frame : image cv) (faces : list rect) :
  forall i b results lg,
    let b' := snd (fst (recognize_faces cv amb gray_frame faces i b results lg)) in
    face_recognizer b' = face_recognizer b
    /\ labels_map b' = labels_map b
    /\ next_label_id b' = next_label_id b
    /\ LBPH_MODEL_FILE b' = LBPH_MODEL_FILE b
    /\ LABELS_MAP_FILE b' = LABELS_MAP_FILE b
    /\ log_extended (ATTENDANCE_LOG_FILE b) (ATTENDANCE_LOG_FILE b')
    /\ (ATTENDANCE_LOG_FILE b <> None ->
        headed (ATTENDANCE_LOG_FILE b) -> headed (ATTENDANCE_LOG_FILE b')).
Proof.
  induction faces as [|face faces IH]; intros i b results lg; simpl.
  { repeat split; auto. apply log_extended_refl. }
  destruct (face_recognizer b) as [m|] eqn:Hm; simpl.
  2:{ repeat split; auto. apply log_extended_refl. }
  destruct (lbph_predict cv _ _ _) as [label confidence].
  destruct (Qltb confidence recognition_threshold && PyDict.mem label (labels_map b)).
  2:{ specialize (IH (S i) b (results ++ [unknown_text confidence]) lg).
      simpl in IH. rewrite Hm in IH. exact IH. }
  destruct (PyDict.get label (labels_map b)) as [who|]; simpl.
  2:{ repeat split; auto. apply log_extended_refl. }
  pose proof (log_attendance_frame (clock amb i) (attendance_fault amb i)
                (name who) (roll_no who) b) as (H1 & H2 & H3 & H4 & H5).
  pose proof (log_attendance_file (clock amb i) (attendance_fault amb i)
                (name who) (roll_no who) b) as (H6 & H7).
  destruct (log_attendance cv (clock amb i) _ _ _ b) as [[ok b1] lg1].
  simpl in *.
  specialize (IH (S i) b1 (results ++ [recognized_text who]) (lg ++ lg1)).
  simpl in IH. destruct IH as (I1 & I2 & I3 & I4 & I5 & I6 & I7).
  repeat split; try congruence.
  - eapply log_extended_trans; eassumption.
  - intros Hsome Hhead. apply I7; [|auto].
    exact (log_extended_present _ _ H6 Hsome).
Qed.

(** X8.  With a registry that is not empty, the answer of the scan route does
    not depend on the dedup map, the attendance file, the clock or the
    failures of the attendance writes: two backends with the same recognizer
    and registry answer alike.  In particular a recognized face is reported
    as "Attendance Marked" also when its record was suppressed or could not
    be written. *)
Theorem scan_response_ignores_attendance (image_file : option (blob cv))
    amb1 amb2 b1 b2 :
  PyDict.is_empty (labels_map b1) = false ->
  same_model b1 b2 ->
  fst (fst (scan_image_endpoint cv image_file amb1 b1))
  = fst (fst (scan_image_endpoint cv image_file amb2 b2)).
Proof.
  intros Hne [Hrec Hmap]. unfold scan_image_endpoint, ensure_model.
  rewrite <- Hmap, Hne.
  destruct image_file as [data|]; [|reflexivity].
  destruct (detector_empty cv); [reflexivity|]. simpl.
  destruct (py_imdecode cv data) as [e|[fr|]]; [reflexivity| |reflexivity].
  destruct (det_any _) as [e|[|]]; try reflexivity.
  pose proof (recognize_faces_outcome amb1 amb2 (cvtColor_gray cv fr)
                (det_rows (detect_scan cv (cvtColor_gray cv fr))) O O b1 b2 []
                ([LogInfo MsgScanRequest] ++ []) ([LogInfo MsgScanRequest] ++ [])
                (conj Hrec Hmap)) as Hsame.
  destruct (recognize_faces cv amb1 _ _ _ b1 _ _) as [[r1 b1'] lg1'].
  destruct (recognize_faces cv amb2 _ _ _ b2 _ _) as [[r2 b2'] lg2'].
  simpl in Hsame. subst r2. destruct r1; reflexivity.
Qed.

(** X9.  With a registry that is not empty, a scan request, whatever it
    carries and however it ends, leaves the recognizer, the registry, the
    counter and the model files as they were; the attendance file only grows
    at its end, and a file that was there with its header line keeps it. *)
Theorem scan_keeps_model (image_file : option (blob cv)) amb b :
  PyDict.is_empty (labels_map b) = false ->
  let b' := snd (fst (scan_image_endpoint cv image_file amb b)) in
  face_recognizer b' = face_recognizer b
  /\ labels_map b' = labels_map b
  /\ next_label_id b' = next_label_id b
  /\ LBPH_MODEL_FILE b' = LBPH_MODEL_FILE b
  /\ LABELS_MAP_FILE b' = LABELS_MAP_FILE b
  /\ log_extended (ATTENDANCE_LOG_FILE b) (ATTENDANCE_LOG_FILE b')
  /\ (ATTENDANCE_LOG_FILE b <> None ->
      headed (ATTENDANCE_LOG_FILE b) -> headed (ATTENDANCE_LOG_FILE b')).
Proof.
  intros Hne. unfold scan_image_endpoint, ensure_model. rewrite Hne.
  assert (Hsame : face_recognizer b = face_recognizer b
            /\ labels_map b = labels_map b
            /\ next_label_id b = next_label_id b
            /\ LBPH_MODEL_FILE b = LBPH_MODEL_FILE b
            /\ LABELS_MAP_FILE b = LABELS_MAP_FILE b
            /\ log_extended (ATTENDANCE_LOG_FILE b) (ATTENDANCE_LOG_FILE b)
            /\ (ATTENDANCE_LOG_FILE b <> None ->
                headed (ATTENDANCE_LOG_FILE b) -> headed (ATTENDANCE_LOG_FILE b))).
  { repeat split; auto. apply log_extended_refl. }
  destruct image_file as [data|]; [|exact Hsame].
  destruct (detector_empty cv); [exact Hsame|]. simpl.
  destruct (py_imdecode cv data) as [e|[fr|]]; [exact Hsame| |exact Hsame].
  destruct (det_any _) as [e|[|]]; try exact Hsame.
  pose proof (recognize_faces_frame amb (cvtColor_gray cv fr)
                (det_rows (detect_scan cv (cvtColor_gray cv fr))) O b []
                ([LogInfo MsgScanRequest] ++ [])) as Hframe.
  destruct (recognize_faces cv amb _ _ _ b _ _) as [[r b1] lg1].
  simpl in Hframe. destruct r; exact Hframe.
Qed.

(** X10.  A backend whose registry is not empty while its recognizer was
    never trained or read (the state a first training without samples
    leaves) answers every scan of an image with detected faces by an error
    with status 500: the request does not load or train anything, and the
    backend is left as it was. *)
Theorem scan_with_untrained_recognizer_is_error (data : blob cv) amb b
    (fr : frame cv) (rows : list rect) :
  detector_empty cv = false ->
  PyDict.is_empty (labels_map b) = false ->
  face_recognizer b = None ->
  imdecode_color cv data = Some fr ->
  detect_scan cv (cvtColor_gray cv fr) = NdArray rows ->
  existsb rect_nonzero rows = true ->
  exists text,
    fst (scan_image_endpoint cv (Some data) amb b)
    = ((JsonError text, 500), b).
Proof.
  intros Hdet Hne Hnone Hdec Hrows Hany.
  unfold scan_image_endpoint, ensure_model.
  rewrite Hdet, Hne, (py_imdecode_frame _ _ Hdec), Hrows. simpl. rewrite Hany.
  destruct rows as [|face rows]; [discriminate|].
  simpl. rewrite Hnone. eexists. reflexivity.
Qed.

End ScanMore.

Lemma scan_response_ignores_attendance_witness :
  fst (fst (scan_image_endpoint Toy.cv (Toy.upload [Toy.face_a]) Toy.calm
              Toy.after_first_training))
  = fst (fst (scan_image_endpoint Toy.cv (Toy.upload [Toy.face_a]) Toy.calm
                (snd (fst (log_attendance Toy.cv ToyIO.noon WriteOk "Alice" "1"
                             Toy.after_first_training))))).
Proof.
  exact (scan_response_ignores_attendance (cv := Toy.cv) (Toy.upload [Toy.face_a])
           Toy.calm Toy.calm Toy.after_first_training
           (snd (fst (log_attendance Toy.cv ToyIO.noon WriteOk "Alice" "1"
                        Toy.after_first_training)))
           eq_refl (conj eq_refl eq_refl)).
Defined.

Lemma scan_keeps_model_witness :
  labels_map (snd (fst (scan_image_endpoint Toy.cv (Toy.upload [Toy.face_a])
                          Toy.calm Toy.after_first_training)))
  = [(0, Toy.alice); (1, Toy.bob)].
Proof.
  destruct (scan_keeps_model (cv := Toy.cv) (Toy.upload [Toy.face_a]) Toy.calm
              Toy.after_first_training eq_refl) as (_ & Hmap & _).
  exact Hmap.
Defined.

Lemma scan_with_untrained_recognizer_is_error_witness :
  exists text,
    fst (scan_image_endpoint Toy.cv (Toy.upload [Toy.face_a]) Toy.calm
                             Toy.after_failed_training)
    = ((JsonError text, 500), Toy.after_failed_training).
Proof.
  exact (scan_with_untrained_recognizer_is_error (cv := Toy.cv)
           (Some [Toy.face_a]) Toy.calm Toy.after_failed_training
           [Toy.face_a] [Toy.face_a] eq_refl eq_refl eq_refl eq_refl eq_refl
           eq_refl).
Defined.

(** ** Registration *)

Lemma alnum_is_plain (c : ascii) :
  is_alnum c = true ->
  is_space c = false /\ Ascii.eqb c " " = false /\ Ascii.eqb c "_" = false
  /\ Ascii.eqb c "-" = false.
Proof.
  destruct c as [[] [] [] [] [] [] [] []]; vm_compute;
    first [discriminate | intros _; repeat split].
Qed.

Lemma keep_all (p : ascii -> bool) (s : string) :
  all_chars p s = true -> keep p s = s.
Proof.
  induction s as [|c s IH]; simpl; [reflexivity|].
  intros H. apply andb_true_iff in H as [-> H]. rewrite (IH H). reflexivity.
Qed.

Lemma all_chars_app (p : ascii -> bool) (s t : string) :
  all_chars p (s ++ t) = all_chars p s && all_chars p t.
Proof.
  induction s as [|c s IH]; [reflexivity|].
  rewrite string_app_cons. simpl. rewrite IH, andb_assoc. reflexivity.
Qed.

Lemma all_chars_weaken (p q : ascii -> bool) (s : string) :
  (forall c, p c = true -> q c = true) ->
  all_chars p s = true -> all_chars q s = true.
Proof.
  intros Hpq. induction s as [|c s IH]; simpl; [reflexivity|].
  intros H. apply andb_true_iff in H as [Hc H]. rewrite (Hpq c Hc), (IH H).
  reflexivity.
Qed.

Lemma word_contains (sep : ascii) (w : string) :
  sep = " "%char \/ sep = "_"%char \/ sep = "-"%char ->
  all_chars is_alnum w = true -> PyStr.contains sep w = false.
Proof.
  intros Hsep. induction w as [|c w IH]; simpl; [reflexivity|].
  intros H. apply andb_true_iff in H as [Hc H]. rewrite (IH H).
  destruct (alnum_is_plain c Hc) as (_ & H1 & H2 & H3).
  destruct Hsep as [-> | [-> | ->]]; rewrite ?H1, ?H2, ?H3; reflexivity.
Qed.

Lemma replace_absent (a b : ascii) (s : string) :
  PyStr.contains a s = false -> PyStr.replace a b s = s.
Proof.
  induction s as [|c s IH]; simpl; [reflexivity|].
  intros H. apply orb_false_iff in H as [-> H]. rewrite (IH H). reflexivity.
Qed.

Lemma replace_app (a b : ascii) (s t : string) :
  PyStr.replace a b (s ++ t) = (PyStr.replace a b s ++ PyStr.replace a b t)%string.
Proof.
  induction s as [|c s IH]; [reflexivity|].
  rewrite string_app_cons. simpl. rewrite IH. reflexivity.
Qed.

Lemma lstrip_word_first (w rest : string) :
  is_word w = true -> lstrip (w ++ rest) = (w ++ rest)%string.
Proof.
  unfold is_word. destruct w as [|c w]; [discriminate|].
  intros H. apply andb_true_iff in H as [H _]. simpl in H.
  apply andb_true_iff in H as [Hc _].
  rewrite string_app_cons. simpl.
  destruct (alnum_is_plain c Hc) as (-> & _). reflexivity.
Qed.

Lemma rstrip_word (w : string) :
  all_chars is_alnum w = true -> rstrip w = w.
Proof.
  induction w as [|c w IH]; simpl; [reflexivity|].
  intros H. apply andb_true_iff in H as [Hc H]. rewrite (IH H).
  destruct (alnum_is_plain c Hc) as (-> & _). destruct w; reflexivity.
Qed.

Lemma rstrip_word_last (pre w : string) :
  is_word w = true -> rstrip (pre ++ w) = (pre ++ w)%string.
Proof.
  intros Hw. unfold is_word in Hw. apply andb_true_iff in Hw as [Hall Hne].
  induction pre as [|c pre IH]; [apply rstrip_word, Hall|].
  rewrite string_app_cons. simpl. rewrite IH.
  destruct (pre ++ w)%string eqn:E; [|reflexivity].
  destruct pre; [|discriminate]. change (w = EmptyString) in E.
  rewrite E in Hne. discriminate.
Qed.

Lemma strip_word (w : string) : is_word w = true -> strip w = w.
Proof.
  intros Hw. unfold strip.
  rewrite <- (string_app_nil_r w) at 1. rewrite (lstrip_word_first w _ Hw).
  rewrite string_app_nil_r. apply rstrip_word.
  unfold is_word in Hw. apply andb_true_iff in Hw as [H _]. exact H.
Qed.

Lemma clean_roll_no_word (rn : string) : is_word rn = true -> clean_roll_no rn = rn.
Proof.
  intros Hw. unfold clean_roll_no. rewrite keep_all; [apply strip_word, Hw|].
  unfold is_word in Hw. apply andb_true_iff in Hw as [H _].
  eapply all_chars_weaken; [|exact H]. intros c ->. reflexivity.
Qed.

Lemma word_all (w : string) : is_word w = true -> all_chars is_alnum w = true.
Proof. unfold is_word. intros H. apply andb_true_iff in H as [H _]. exact H. Qed.

(** X11.  For a one-word name and roll number (ASCII letters and digits),
    the directory [register_face] creates is [name_roll], and the trainer
    reads it back as that roll number under the title-cased name: the first
    letter is upper-cased and the letters after a letter are lower-cased,
    whatever case the form had. *)
Theorem registered_word_is_read_back (nm rn : string) :
  is_word nm = true ->
  is_word rn = true ->
  person_dir_name nm rn = (nm ++ String "_" rn)%string
  /\ parse_dir_name (person_dir_name nm rn)
     = {| name := PyStr.title nm; roll_no := rn |}.
Proof.
  intros Hnm Hrn.
  assert (Hdir : person_dir_name nm rn = (nm ++ String "_" rn)%string).
  { unfold person_dir_name, clean_name. rewrite (clean_roll_no_word rn Hrn).
    rewrite keep_all.
    - rewrite (strip_word nm Hnm), replace_absent; [reflexivity|].
      apply word_contains; [auto | apply word_all, Hnm].
    - eapply all_chars_weaken; [|apply word_all, Hnm]. intros c ->. reflexivity. }
  split; [exact Hdir|]. rewrite Hdir. unfold parse_dir_name.
  rewrite split_at_first_separator
    by (apply word_contains; [auto | apply word_all, Hnm]).
  rewrite split_without_separator
    by (apply word_contains; [auto | apply word_all, Hrn]).
  simpl. rewrite replace_absent; [reflexivity|].
  apply word_contains; [auto | apply word_all, Hnm].
Qed.

Lemma registered_word_is_read_back_witness :
  parse_dir_name (person_dir_name "McDONALD" "17b")
  = {| name := "Mcdonald"; roll_no := "17b" |}.
Proof.
  exact (proj2 (registered_word_is_read_back "McDONALD" "17b" eq_refl eq_refl)).
Defined.

(** X12.  For a name of two words separated by one space, the directory
    [register_face] creates is [first_second_roll], and the trainer reads it
    back as the first word for the name and the second word for the roll
    number: the roll number of the form does not reach the registry. *)
Theorem registered_two_word_name_loses_roll_no (first second rn : string) :
  is_word first = true ->
  is_word second = true ->
  is_word rn = true ->
  person_dir_name (first ++ String " " second) rn
  = (first ++ String "_" (second ++ String "_" rn))%string
  /\ parse_dir_name (person_dir_name (first ++ String " " second) rn)
     = {| name := PyStr.title first; roll_no := second |}.
Proof.
  intros H1 H2 Hrn.
  assert (Hdir : person_dir_name (first ++ String " " second) rn
                 = (first ++ String "_" (second ++ String "_" rn))%string).
  { unfold person_dir_name, clean_name. rewrite (clean_roll_no_word rn Hrn).
    rewrite keep_all.
    - unfold strip. rewrite (lstrip_word_first first _ H1).
      change (first ++ String " " second)%string
        with (first ++ (String " " EmptyString ++ second))%string.
      rewrite <- (string_app_assoc first (String " " EmptyString) second).
      rewrite (rstrip_word_last _ second H2).
      rewrite !replace_app.
      rewrite (replace_absent " " "_" first), (replace_absent " " "_" second)
        by (apply word_contains; [auto | apply word_all; assumption]).
      simpl. rewrite !string_app_assoc. reflexivity.
    - rewrite all_chars_app. simpl.
      rewrite (all_chars_weaken is_alnum _ first), (all_chars_weaken is_alnum _ second);
        [reflexivity | | apply word_all, H2 | | apply word_all, H1];
        intros c ->; reflexivity. }
  split; [exact Hdir|]. rewrite Hdir. unfold parse_dir_name.
  rewrite split_at_first_separator
    by (apply word_contains; [auto | apply word_all, H1]).
  rewrite split_at_first_separator
    by (apply word_contains; [auto | apply word_all, H2]).
  simpl. rewrite replace_absent; [reflexivity|].
  apply word_contains; [auto | apply word_all, H1].
Qed.

Lemma registered_two_word_name_loses_roll_no_witness :
  parse_dir_name (person_dir_name "John Doe" "42")
  = {| name := "John"; roll_no := "Doe" |}.
Proof.
  exact (proj2 (registered_two_word_name_loses_roll_no "John" "Doe" "42"
                  eq_refl eq_refl eq_refl)).
Defined.

(** ** Registration and the training directory *)

Lemma insert_by_name_In {A : Type} (x y : string * A) (l : list (string * A)) :
  In y (insert_by_name x l) <-> y = x \/ In y l.
Proof.
  induction l as [|z l IH]; simpl; [intuition|].
  destruct (String.leb (fst x) (fst z)); simpl; [intuition|].
  rewrite IH. intuition.
Qed.

Lemma sort_by_name_In {A : Type} (y : string * A) (l : list (string * A)) :
  In y (sort_by_name l) <-> In y l.
Proof.
  unfold sort_by_name. induction l as [|x l IH]; simpl; [tauto|].
  rewrite insert_by_name_In, IH. intuition.
Qed.

Section Directory.
Context {cv : cv2}.
Implicit Types (top entries : list (string * node cv)) (b : backend cv).

Lemma subdirs_In (dname : string) entries top :
  In (dname, entries) (subdirs cv top) <-> In (dname, Dir entries) top.
Proof.
  induction top as [|[nm n] top IH]; simpl; [tauto|].
  destruct n as [data|es]; simpl; rewrite IH; [|].
  - split; [auto|]. intros [H|H]; [discriminate | exact H].
  - split; intros [H|H]; auto; left; congruence.
Qed.

Lemma os_walk_head top :
  exists deeper, os_walk cv top = sort_by_name (subdirs cv top) :: deeper.
Proof. unfold os_walk. simpl. eauto. Qed.

Lemma group_in_walk (dname : string) entries top :
  In (dname, Dir entries) top -> In (dname, entries) (concat (os_walk cv top)).
Proof.
  intros H. destruct (os_walk_head top) as [deeper ->]. simpl.
  apply in_or_app. left. apply sort_by_name_In, subdirs_In, H.
Qed.

Lemma dir_lookup_In (dname : string) (n : node cv) top :
  dir_lookup dname top = Some n -> In (dname, n) top.
Proof.
  induction top as [|[nm x] top IH]; simpl; [discriminate|].
  destruct (String.eqb nm dname) eqn:E.
  - intros [= ->]. apply String.eqb_eq in E. subst. auto.
  - auto.
Qed.

Lemma dir_lookup_app_new (dname : string) (n : node cv) top :
  dir_lookup dname top = None ->
  dir_lookup dname (top ++ [(dname, n)]) = Some n.
Proof.
  induction top as [|[nm x] top IH]; simpl.
  - rewrite String.eqb_refl. reflexivity.
  - destruct (String.eqb nm dname); [discriminate | exact IH].
Qed.

(** After [os.makedirs] returned, the directory is there. *)
Lemma makedirs_creates (dname : string) training top :
  makedirs dname training = inr top ->
  exists entries, dir_lookup dname top = Some (Dir entries)
    /\ (training = None \/ (exists before, training = Some before
                              /\ dir_lookup dname before = None) ->
        entries = []).
Proof.
  unfold makedirs. destruct training as [before|].
  - destruct (dir_lookup dname before) as [[data|es]|] eqn:E.
    + discriminate.
    + intros [= <-]. exists es. split; [exact E|].
      intros [H|(x & [= <-] & H)]; congruence.
    + intros [= <-]. exists []. split; [apply dir_lookup_app_new, E | auto].
  - intros [= <-]. exists []. simpl. rewrite String.eqb_refl. auto.
Qed.

(** X13.  Every sub-directory of the training directory gets a registry
    entry when [train_model()] runs from a backend whose counter is beyond
    every label: the entry is made before the images are looked at, so it is
    there also for a directory without a usable image and also when the
    training returns [False]. *)
Theorem train_model_registers_every_group top fault b (dname : string) entries :
  detector_empty cv = false ->
  counter_above (labels_map b) (next_label_id b) ->
  In (dname, Dir entries) top ->
  exists l,
    group_label (labels_map (snd (fst (train_model cv (Some top) fault b)))) dname
    = Some l.
Proof.
  intros Hdet Habove Hin. unfold train_model. rewrite Hdet.
  match goal with |- context [scan_training_dir cv top ?s] => set (st0 := s) end.
  assert (Hall := fold_process_dir_labels (concat (os_walk cv top)) st0 Habove).
  destruct Hall as (_ & _ & Hall).
  rewrite List.Forall_forall in Hall.
  specialize (Hall _ (group_in_walk dname entries top Hin)). simpl in Hall.
  unfold scan_training_dir. rewrite fold_left_concat.
  set (final := fold_left (process_dir cv) (concat (os_walk cv top)) st0) in *.
  destruct (sc_images final); [exact Hall|].
  destruct fault; exact Hall.
Qed.

(** X14.  A registration whose upload holds bytes that cannot be decoded is
    answered with status 400 and leaves the backend as it was, and one whose
    upload holds no byte at all is answered with status 500, the decoder
    raising; in both cases [os.makedirs] has already run: the person's
    directory exists afterwards (empty, when it was not there before). *)
Theorem register_face_undecodable_leaves_directory
    (encode : frame cv -> blob cv) form_name form_roll_no (data : blob cv)
    now imwrite fault training b (nm rn : string) top :
  field_given form_name = Some nm ->
  field_given form_roll_no = Some rn ->
  makedirs (person_dir_name nm rn) training = inr top ->
  imdecode_color cv data = None ->
  register_face cv encode form_name form_roll_no (Some data) now imwrite fault
                training b
  = (if empty_buffer cv data
     then (inr (JsonError (registration_error_text (imdecode_empty cv)), 500), b,
           Some top, [RegRequest; RegError (imdecode_empty cv)])
     else (inr (JsonError "Invalid image file provided.", 400), b, Some top,
           [RegRequest; RegDecodeError]))
  /\ exists entries,
       dir_lookup (person_dir_name nm rn) top = Some (Dir entries)
       /\ (training = None
           \/ (exists before, training = Some before
                 /\ dir_lookup (person_dir_name nm rn) before = None) ->
           entries = []).
Proof.
  intros Hnm Hrn Hmk Hdec. split.
  - unfold register_face, py_imdecode. rewrite Hnm, Hrn, Hmk, Hdec.
    destruct (empty_buffer cv data); reflexivity.
  - apply (makedirs_creates _ _ _ Hmk).
Qed.

End Directory.

Lemma string_length_app (s t : string) :
  String.length (s ++ t) = (String.length s + String.length t)%nat.
Proof.
  induction s as [|c s IH]; [reflexivity|].
  rewrite string_app_cons. simpl. rewrite IH. reflexivity.
Qed.

Lemma substring_whole (t : string) : String.substring 0 (String.length t) t = t.
Proof. induction t as [|c t IH]; simpl; [|rewrite IH]; reflexivity. Qed.

Lemma substring_after (s t : string) (k : nat) :
  String.substring (String.length s) k (s ++ t) = String.substring 0 k t.
Proof.
  induction s as [|c s IH]; [reflexivity|].
  rewrite string_app_cons. simpl. exact IH.
Qed.

Lemma endswith_app (s suffix : string) :
  PyStr.endswith (s ++ suffix) suffix = true.
Proof.
  unfold PyStr.endswith. rewrite string_length_app.
  replace (String.length s + String.length suffix - String.length suffix)%nat
    with (String.length s) by lia.
  rewrite substring_after, substring_whole, String.eqb_refl.
  apply andb_true_iff. split; [apply Nat.leb_le; lia | reflexivity].
Qed.

Lemma lower_app (s t : string) :
  PyStr.lower (s ++ t) = (PyStr.lower s ++ PyStr.lower t)%string.
Proof.
  induction s as [|c s IH]; [reflexivity|].
  rewrite string_app_cons. simpl. rewrite IH. reflexivity.
Qed.

(** The file name of line 201 passes the extension test of line 110. *)
Lemma image_file_name_is_image (nm rn : string) (now : PyTime.datetime) :
  PyStr.endswith_any (PyStr.lower (image_file_name nm rn now)) image_suffixes
  = true.
Proof.
  unfold image_file_name.
  rewrite <- !string_app_assoc, lower_app.
  change (PyStr.lower ".jpg") with ".jpg"%string.
  unfold PyStr.endswith_any, image_suffixes. cbn [existsb].
  rewrite endswith_app. apply orb_true_r.
Qed.

Section RegisterTrains.
Context {cv : cv2}.
Implicit Types (top entries : list (string * node cv)) (b : backend cv).

Lemma put_file_In (file_name : string) (data : blob cv) entries :
  (forall sub, dir_lookup file_name entries <> Some (Dir sub)) ->
  In (file_name, File data) (put_file file_name data entries).
Proof.
  induction entries as [|[nm n] entries IH]; simpl; [auto|].
  intros Hfree. destruct (String.eqb nm file_name) eqn:E.
  - apply String.eqb_eq in E. subst nm.
    destruct n as [old|sub]; [left; reflexivity|].
    exfalso. apply (Hfree sub). reflexivity.
  - right. apply IH, Hfree.
Qed.

Lemma put_file_in_In (dname file_name : string) (data : blob cv) top entries :
  dir_lookup dname top = Some (Dir entries) ->
  In (dname, Dir (put_file file_name data entries))
     (put_file_in dname file_name data top).
Proof.
  induction top as [|[nm n] top IH]; simpl; [discriminate|].
  destruct (String.eqb nm dname) eqn:E.
  - intros [= ->]. apply String.eqb_eq in E. subst nm. left. reflexivity.
  - intros H. right. apply IH, H.
Qed.

Lemma crop_in_walk (dname file_name : string) (data : blob cv) top entries
    (g : image cv) (face : rect) :
  In (dname, Dir entries) top ->
  In (file_name, File data) entries ->
  PyStr.endswith_any (PyStr.lower file_name) image_suffixes = true ->
  imread_grayscale cv data = Some g ->
  det_rows (detect_train cv g) = [face] ->
  In (crop_resize cv g face)
     (flat_map (fun d => dir_crops (snd d)) (concat (os_walk cv top))).
Proof.
  intros Hdir Hfile Hext Hread Hface.
  apply in_flat_map. exists (dname, entries).
  split; [apply group_in_walk, Hdir|]. simpl. unfold dir_crops.
  apply in_map_iff. exists (crop_resize cv g face, 0). split; [reflexivity|].
  apply in_flat_map. exists (file_name, File data). split; [exact Hfile|].
  unfold file_crops. rewrite Hext. simpl. rewrite Hread, Hface. left. reflexivity.
Qed.

(** X15.  A registration with a name, a roll number and a decodable picture
    that is stored and in which, read back from the stored file, exactly one
    face is detected, is answered with status 200 when nothing fails during
    the training: the picture is a file of the person's directory, and its
    crop is among the images the recognizer is retrained on. *)
Theorem register_face_trains_on_the_picture
    (encode : frame cv -> blob cv) form_name form_roll_no (data : blob cv)
    now training b (nm rn : string) top (img : frame cv) (g : image cv)
    (face : rect) :
  field_given form_name = Some nm ->
  field_given form_roll_no = Some rn ->
  makedirs (person_dir_name nm rn) training = inr top ->
  (forall entries sub,
     dir_lookup (person_dir_name nm rn) top = Some (Dir entries) ->
     dir_lookup (image_file_name nm rn now) entries <> Some (Dir sub)) ->
  detector_empty cv = false ->
  imdecode_color cv data = Some img ->
  imread_grayscale cv (encode img) = Some g ->
  det_rows (detect_train cv g) = [face] ->
  let result := register_face cv encode form_name form_roll_no (Some data) now
                              Written TrainOk training b in
  fst (fst (fst result)) = inr (JsonMessage (registered_text nm rn), 200)
  /\ (exists top' entries,
        snd (fst result) = Some top'
        /\ In (person_dir_name nm rn, Dir entries) top'
        /\ In (image_file_name nm rn now, File (encode img)) entries)
  /\ exists m,
       face_recognizer (snd (fst (fst result))) = Some m
       /\ In (crop_resize cv g face) (trained_images m).
Proof.
  intros Hnm Hrn Hmk Hfree Hdet Hdec Hread Hface result. subst result.
  destruct (makedirs_creates _ _ _ Hmk) as (entries & Hlook & _).
  set (top' := put_file_in (person_dir_name nm rn) (image_file_name nm rn now)
                           (encode img) top).
  assert (Hdir : In (person_dir_name nm rn,
                     Dir (put_file (image_file_name nm rn now) (encode img) entries))
                    top') by (apply put_file_in_In, Hlook).
  assert (Hfile : In (image_file_name nm rn now, File (encode img))
                     (put_file (image_file_name nm rn now) (encode img) entries)).
  { apply put_file_In. intros sub. apply (Hfree entries sub Hlook). }
  pose proof (crop_in_walk _ _ _ _ _ g face Hdir Hfile
                (image_file_name_is_image nm rn now) Hread Hface) as Hcrop.
  unfold register_face. rewrite Hnm, Hrn, Hmk, (py_imdecode_frame _ _ Hdec).
  fold top'. unfold train_model. rewrite Hdet.
  match goal with |- context [scan_training_dir cv top' ?s] => set (st0 := s) end.
  pose proof (scan_training_dir_images (cv := cv) top' st0) as Himages.
  change (sc_images st0) with (@nil (sample cv)) in Himages.
  cbn [app] in Himages. rewrite <- Himages in Hcrop.
  destruct (sc_images (scan_training_dir cv top' st0)) as [|x xs] eqn:E;
    [destruct Hcrop|].
  cbn. split; [reflexivity|]. split; [eauto|].
  eexists. split; [reflexivity|]. exact Hcrop.
Qed.

End RegisterTrains.

Lemma train_model_registers_every_group_witness :
  exists l, group_label (labels_map Toy.after_failed_training) "bob_2" = Some l.
Proof.
  exact (train_model_registers_every_group (cv := Toy.cv) Toy.bob_faceless
           TrainOk Toy.fresh "bob_2" [("b1.jpg"%string, Toy.pic [])]
           eq_refl (List.Forall_nil _) (or_introl eq_refl)).
Defined.

Lemma register_face_undecodable_leaves_directory_witness :
  exists entries,
    dir_lookup (person_dir_name "Carol" "3")
               (Toy.bob_faceless ++ [("Carol_3"%string, Dir [])])
    = Some (Dir entries).
Proof.
  destruct (register_face_undecodable_leaves_directory (cv := Toy.cv)
              ToyIO.encode (Some "Carol"%string) (Some "3"%string) None
              ToyIO.noon Written TrainOk (Some Toy.bob_faceless) Toy.fresh
              "Carol" "3" (Toy.bob_faceless ++ [("Carol_3"%string, Dir [])])
              eq_refl eq_refl eq_refl eq_refl) as [_ (entries & H & _)].
  exists entries. exact H.
Defined.

Lemma register_face_trains_on_the_picture_witness :
  fst (fst (fst (register_face Toy.cv ToyIO.encode (Some "Carol"%string)
                   (Some "3"%string) (Toy.upload [Toy.face_c]) ToyIO.noon
                   Written TrainOk (Some Toy.bob_faceless) Toy.fresh)))
  = inr (JsonMessage "Successfully registered Carol (3) and retrained model.",
         200).
Proof.
  assert (Hfree : forall entries sub,
            dir_lookup (person_dir_name "Carol" "3")
                       (Toy.bob_faceless ++ [("Carol_3"%string, Dir [])])
            = Some (Dir entries) ->
            dir_lookup (image_file_name "Carol" "3" ToyIO.noon) entries
            <> Some (Dir sub)).
  { intros entries sub Hlook. vm_compute in Hlook.
    injection Hlook as <-. discriminate. }
  exact (proj1 (register_face_trains_on_the_picture (cv := Toy.cv)
                  ToyIO.encode (Some "Carol"%string) (Some "3"%string)
                  (Some [Toy.face_c]) ToyIO.noon (Some Toy.bob_faceless)
                  Toy.fresh "Carol" "3"
                  (Toy.bob_faceless ++ [("Carol_3"%string, Dir [])])
                  [Toy.face_c] [Toy.face_c] Toy.face_c
                  eq_refl eq_refl eq_refl Hfree eq_refl eq_refl eq_refl eq_refl)).
Defined.

(** ** The order of the directory listing *)

Lemma ascii_compare_lt_trans (a b c : ascii) :
  Ascii.compare a b = Lt -> Ascii.compare b c = Lt -> Ascii.compare a c = Lt.
Proof. unfold Ascii.compare. rewrite !N.compare_lt_iff. lia. Qed.

Lemma string_leb_trans (s1 s2 s3 : string) :
  String.leb s1 s2 = true -> String.leb s2 s3 = true -> String.leb s1 s3 = true.
Proof.
  unfold String.leb. revert s2 s3.
  induction s1 as [|c1 s1 IH]; intros [|c2 s2] [|c3 s3]; simpl; try congruence.
  destruct (Ascii.compare c1 c2) eqn:E12; try discriminate.
  - apply Ascii.compare_eq_iff in E12. subst c2.
    destruct (Ascii.compare c1 c3) eqn:E13; try congruence. apply IH.
  - destruct (Ascii.compare c2 c3) eqn:E23; try discriminate.
    + apply Ascii.compare_eq_iff in E23. subst c3. rewrite E12. auto.
    + rewrite (ascii_compare_lt_trans _ _ _ E12 E23). auto.
Qed.

Lemma string_leb_false (s1 s2 : string) :
  String.leb s1 s2 = false -> String.leb s2 s1 = true.
Proof.
  intros H. destruct (String.leb_total s1 s2) as [H'|H']; congruence.
Qed.

Section Sorting.
Context {A : Type}.
Implicit Types (x y z : string * A) (l : list (string * A)).

(** Two insertions under different names commute, in any list. *)
Lemma insert_by_name_comm x y l :
  fst x <> fst y ->
  insert_by_name x (insert_by_name y l) = insert_by_name y (insert_by_name x l).
Proof.
  intros Hne. induction l as [|z l IH]; simpl.
  - destruct (String.leb (fst x) (fst y)) eqn:Exy,
             (String.leb (fst y) (fst x)) eqn:Eyx; try reflexivity.
    + exfalso. apply Hne. apply String.leb_antisym; assumption.
    + apply string_leb_false in Exy. congruence.
  - destruct (String.leb (fst y) (fst z)) eqn:Eyz,
             (String.leb (fst x) (fst z)) eqn:Exz; simpl.
    + destruct (String.leb (fst x) (fst y)) eqn:Exy,
               (String.leb (fst y) (fst x)) eqn:Eyx; simpl;
        rewrite ?Eyz, ?Exz; try reflexivity.
      * exfalso. apply Hne. apply String.leb_antisym; assumption.
      * apply string_leb_false in Exy. congruence.
    + rewrite Eyz.
      destruct (String.leb (fst x) (fst y)) eqn:Exy;
        [|simpl; rewrite Exz; reflexivity].
      rewrite (string_leb_trans _ _ _ Exy Eyz) in Exz. discriminate.
    + rewrite Exz.
      destruct (String.leb (fst y) (fst x)) eqn:Eyx;
        [|simpl; rewrite Eyz; reflexivity].
      rewrite (string_leb_trans _ _ _ Eyx Exz) in Eyz. discriminate.
    + rewrite Eyz, Exz, IH. reflexivity.
Qed.

(** Sorting forgets the order in which entries with distinct names come. *)
Lemma sort_by_name_permutation l l' :
  Permutation l l' ->
  List.NoDup (map fst l) ->
  sort_by_name l = sort_by_name l'.
Proof.
  unfold sort_by_name. induction 1 as [|x l l' Hperm IH|x y l|l l' l'' H1 IH1 H2 IH2];
    simpl; intros Hnodup.
  - reflexivity.
  - inversion Hnodup; subst. rewrite IH; auto.
  - apply insert_by_name_comm. inversion Hnodup as [|? ? Hnotin _]; subst.
    intros Heq. apply Hnotin. left. symmetry. exact Heq.
  - rewrite IH1 by exact Hnodup. apply IH2.
    eapply Permutation.Permutation_NoDup; [|exact Hnodup].
    apply Permutation.Permutation_map, H1.
Qed.

End Sorting.

Section ListingOrder.
Context {cv : cv2}.
Implicit Types (top : list (string * node cv)).

Lemma os_walk_unfold top :
  os_walk cv top
  = sort_by_name (subdirs cv top)
    :: concat (map snd (sort_by_name (sub_walks cv top))).
Proof. reflexivity. Qed.

Lemma subdirs_permutation top top' :
  Permutation top top' -> Permutation (subdirs cv top) (subdirs cv top').
Proof.
  induction 1 as [|[nm n] l l' Hperm IH|[nx x] [ny y] l|l l' l'' H1 IH1 H2 IH2];
    simpl.
  - constructor.
  - destruct n; [exact IH | constructor; exact IH].
  - destruct x, y; try apply Permutation_refl. constructor.
  - eapply Permutation_trans; eassumption.
Qed.

Lemma sub_walks_permutation top top' :
  Permutation top top' -> Permutation (sub_walks cv top) (sub_walks cv top').
Proof.
  induction 1 as [|[nm n] l l' Hperm IH|[nx x] [ny y] l|l l' l'' H1 IH1 H2 IH2];
    simpl.
  - constructor.
  - destruct n; [exact IH | constructor; exact IH].
  - destruct x, y; try apply Permutation_refl. constructor.
  - eapply Permutation_trans; eassumption.
Qed.

Lemma subdirs_names top (nm : string) :
  In nm (map fst (subdirs cv top)) -> In nm (map fst top).
Proof.
  induction top as [|[nm' n] top IH]; simpl; [auto|].
  destruct n; simpl; intuition.
Qed.

Lemma subdirs_nodup top :
  List.NoDup (map fst top) -> List.NoDup (map fst (subdirs cv top)).
Proof.
  induction top as [|[nm n] top IH]; simpl; [auto|].
  intros H. inversion H as [|? ? Hnotin Hrest]; subst.
  destruct n; simpl; [auto|].
  constructor; [|auto]. intros Hin. apply Hnotin, subdirs_names, Hin.
Qed.

Lemma sub_walks_names top :
  map fst (sub_walks cv top) = map fst (subdirs cv top).
Proof.
  induction top as [|[nm n] top IH]; simpl; [reflexivity|].
  destruct n; simpl; [exact IH | rewrite IH; reflexivity].
Qed.

(** X16.  [dirs.sort()] makes the training independent of the order in which
    the operating system lists the sub-directories of the training directory:
    two listings of the same entries, with pairwise distinct names, give the
    same walk, hence the same labels, the same backend and the same log. *)
Theorem train_model_ignores_listing_order top top' fault (b : backend cv) :
  Permutation top top' ->
  List.NoDup (map fst top) ->
  os_walk cv top' = os_walk cv top
  /\ train_model cv (Some top') fault b = train_model cv (Some top) fault b.
Proof.
  intros Hperm Hnodup.
  assert (Hwalk : os_walk cv top' = os_walk cv top).
  { rewrite !os_walk_unfold. f_equal.
    - symmetry. apply sort_by_name_permutation;
        [apply subdirs_permutation, Hperm | apply subdirs_nodup, Hnodup].
    - do 2 f_equal. symmetry. apply sort_by_name_permutation;
        [apply sub_walks_permutation, Hperm|].
      rewrite sub_walks_names. apply subdirs_nodup, Hnodup. }
  split; [exact Hwalk|].
  unfold train_model, scan_training_dir. rewrite Hwalk. reflexivity.
Qed.

End ListingOrder.

Lemma train_model_ignores_listing_order_witness :
  train_model Toy.cv (Some (rev Toy.alice_and_bob)) TrainOk Toy.fresh
  = train_model Toy.cv (Some Toy.alice_and_bob) TrainOk Toy.fresh.
Proof.
  refine (proj2 (train_model_ignores_listing_order (cv := Toy.cv)
                   Toy.alice_and_bob (rev Toy.alice_and_bob) TrainOk Toy.fresh
                   _ _)).
  - apply Permutation.perm_swap.
  - repeat constructor; simpl; intuition discriminate.
Defined.

(** ** Retraining and loading *)

Lemma map_Some_inj {A : Type} (l1 l2 : list A) :
  map Some l1 = map Some l2 -> l1 = l2.
Proof.
  revert l2. induction l1 as [|x l1 IH]; intros [|y l2]; simpl;
    try discriminate; [reflexivity|].
  intros [= -> H]. rewrite (IH _ H). reflexivity.
Qed.

Section Retraining.
Context {cv : cv2}.
Implicit Types (st : scan_state cv) (b : backend cv).

(** When every group already has a label, scanning allocates nothing. *)
Lemma fold_process_dir_all_found (dirs : list (string * list (string * node cv))) :
  forall st,
    Forall (fun d => exists l, group_label (sc_labels_map st) (fst d) = Some l)
           dirs ->
    sc_labels_map (fold_left (process_dir cv) dirs st) = sc_labels_map st
    /\ sc_current_id (fold_left (process_dir cv) dirs st) = sc_current_id st.
Proof.
  induction dirs as [|d dirs IH]; intros st Hall; simpl; [auto|].
  inversion Hall as [|? ? [l Hl] Hrest]; subst.
  assert (Hstep : sc_labels_map (process_dir cv st d) = sc_labels_map st
                  /\ sc_current_id (process_dir cv st d) = sc_current_id st).
  { destruct d as [dir_name listing]. unfold process_dir.
    unfold group_label in Hl. cbn [fst] in Hl.
    rewrite (resolve_label_reuses _ (sc_current_id st) _ _ _ Hl).
    match goal with |- context [fold_left _ listing ?s] => set (st0 := s) end.
    destruct (fold_process_file_registry (cv := cv) l listing st0) as [-> ->].
    auto. }
  destruct Hstep as [Hmap Hcur].
  destruct (IH (process_dir cv st d)) as [-> ->]; [rewrite Hmap; exact Hrest|].
  auto.
Qed.

(** X17.  Retraining on an unchanged training directory changes nothing:
    after a training that succeeded from a backend whose counter is beyond
    every label, a second [train_model()] on the same directory succeeds and
    leaves the backend exactly as the first one left it (same recognizer,
    registry, counter and files); no label is allocated twice. *)
Theorem train_model_twice (top : list (string * node cv)) b b' lg :
  counter_above (labels_map b) (next_label_id b) ->
  train_model cv (Some top) TrainOk b = (true, b', lg) ->
  fst (train_model cv (Some top) TrainOk b') = (true, b').
Proof.
  intros Habove Hfirst.
  destruct (train_model_keeps_entries (Some top) TrainOk b b' lg Habove Hfirst)
    as [Habove' _].
  assert (Hall : Forall (fun d => exists l, group_label (labels_map b') (fst d) = Some l)
                        (concat (os_walk cv top))).
  { revert Hfirst. unfold train_model.
    destruct (detector_empty cv); [discriminate|].
    match goal with |- context [scan_training_dir cv top ?s] => set (st0 := s) end.
    pose proof (fold_process_dir_labels (cv := cv) (concat (os_walk cv top)) st0 Habove)
      as (_ & _ & H).
    unfold scan_training_dir. rewrite fold_left_concat.
    destruct (sc_images _); [discriminate|].
    intros [= <- <-]. exact H. }
  assert (Hfiles := train_model_success_files (Some top) TrainOk b b' lg Hfirst).
  destruct Hfiles as (m & Hm & Hmodel & Hlabels & _).
  assert (Hm_images : exists labels,
            trained_images m
            = flat_map (fun d => dir_crops (snd d)) (concat (os_walk cv top))
            /\ trained_labels m = map to_int32 labels
            /\ map Some labels
               = flat_map (dir_labels (labels_map b')) (concat (os_walk cv top))
            /\ trained_images m <> []).
  { revert Hfirst Hm. unfold train_model.
    destruct (detector_empty cv); [discriminate|].
    match goal with |- context [scan_training_dir cv top ?s] => set (st0 := s) end.
    pose proof (scan_training_dir_images (cv := cv) top st0) as Himages.
    pose proof (fold_process_dir_labels (cv := cv) (concat (os_walk cv top)) st0 Habove)
      as (_ & Hlab & _).
    unfold scan_training_dir in *. rewrite fold_left_concat in *.
    destruct (sc_images _) eqn:E; [discriminate|].
    intros [= <- <-] [= <-]. cbn [trained_images trained_labels labels_map].
    eexists. split; [exact Himages|]. split; [reflexivity|].
    split; [exact Hlab | discriminate]. }
  destruct Hm_images as (labels & Himg1 & Hstored & Hlab1 & Hne).
  unfold train_model.
  destruct (detector_empty cv) eqn:Hdet.
  { revert Hfirst. unfold train_model. rewrite Hdet. discriminate. }
  match goal with |- context [scan_training_dir cv top ?s] => set (st1 := s) end.
  pose proof (scan_training_dir_images (cv := cv) top st1) as Himages.
  pose proof (fold_process_dir_labels (cv := cv) (concat (os_walk cv top)) st1 Habove')
    as (_ & Hlab & _).
  pose proof (fold_process_dir_all_found (concat (os_walk cv top)) st1 Hall)
    as [Hmap Hcur].
  unfold scan_training_dir in *. rewrite fold_left_concat in *.
  set (final := fold_left (process_dir cv) (concat (os_walk cv top)) st1) in *.
  change (sc_images st1) with (@nil (sample cv)) in Himages.
  change (sc_labels st1) with (@nil Z) in Hlab.
  change (sc_labels_map st1) with (labels_map b') in Hmap.
  change (sc_current_id st1) with (next_label_id b') in Hcur.
  cbn [app map] in Himages, Hlab.
  rewrite Hmap, <- Hlab1 in Hlab. apply map_Some_inj in Hlab.
  rewrite <- Himg1 in Himages.
  rewrite Himages, Hlab, <- Hstored, Hmap, Hcur.
  destruct (trained_images m) as [|x xs] eqn:E; [congruence|].
  cbn [fst]. f_equal. rewrite <- E.
  clear - Hm Hmodel Hlabels.
  destruct b' as [rec lm nxt seen mf lf af], m as [imgs labs].
  cbn in Hm, Hmodel, Hlabels |- *. rewrite Hm, Hmodel, Hlabels. reflexivity.
Qed.

(** X18.  After a start-up that loaded intact files, the counter is beyond
    every loaded label, so a training that succeeds keeps every loaded
    identity under its label: labels saved by an earlier process are never
    given to someone else. *)
Theorem loaded_labels_are_kept b (m : lbph cv)
    (loaded : list (Z * identity)) dir fault dir2 fault2 b2 lg :
  LBPH_MODEL_FILE b = Some (Intact m) ->
  LABELS_MAP_FILE b = Some (Intact loaded) ->
  let b1 := snd (fst (startup cv dir fault b)) in
  train_model cv dir2 fault2 b1 = (true, b2, lg) ->
  fst (fst (startup cv dir fault b)) = true
  /\ labels_map b1 = loaded
  /\ counter_above (labels_map b1) (next_label_id b1)
  /\ forall l who, PyDict.get l loaded = Some who ->
                   PyDict.get l (labels_map b2) = Some who.
Proof.
  intros Hmodel Hlabels b1. subst b1.
  unfold startup, load_or_train_model.
  cbn [imported LBPH_MODEL_FILE LABELS_MAP_FILE]. rewrite Hmodel, Hlabels.
  cbn [fst snd]. intros Htrain.
  split; [reflexivity|]. split; [reflexivity|].
  assert (Habove : counter_above loaded (next_after loaded))
    by apply next_after_above.
  split; [exact Habove|].
  refine (proj2 (train_model_keeps_entries dir2 fault2 _ b2 lg _ Htrain)).
  exact Habove.
Qed.

End Retraining.

Lemma train_model_twice_witness :
  fst (train_model Toy.cv (Some Toy.alice_and_bob) TrainOk Toy.after_first_training)
  = (true, Toy.after_first_training).
Proof.
  exact (train_model_twice (cv := Toy.cv) Toy.alice_and_bob Toy.fresh
           Toy.after_first_training
           (snd (train_model Toy.cv (Some Toy.alice_and_bob) TrainOk Toy.fresh))
           (List.Forall_nil _) eq_refl).
Defined.

Lemma loaded_labels_are_kept_witness :
  PyDict.get 1
    (labels_map
       (snd (fst (train_model Toy.cv (Some Toy.alice_and_bob) TrainOk
                    (snd (fst (startup Toy.cv None TrainOk
                                 Toy.after_first_training)))))))
  = Some Toy.bob.
Proof.
  destruct (loaded_labels_are_kept (cv := Toy.cv) Toy.after_first_training
              (@Build_lbph Toy.cv [Toy.face_a] [0])
              [(0, Toy.alice); (1, Toy.bob)] None TrainOk
              (Some Toy.alice_and_bob) TrainOk
              (snd (fst (train_model Toy.cv (Some Toy.alice_and_bob) TrainOk
                           (snd (fst (startup Toy.cv None TrainOk
                                        Toy.after_first_training))))))
              (snd (train_model Toy.cv (Some Toy.alice_and_bob) TrainOk
                      (snd (fst (startup Toy.cv None TrainOk
                                   Toy.after_first_training)))))
              eq_refl eq_refl eq_refl) as (_ & _ & _ & Hkept).
  exact (Hkept 1 Toy.bob eq_refl).
Defined.
